(** * FileVerificationSystem: the integrity ledger of [backend/src/server.js]

    A shallow embedding of the Express backend (the in-memory record table,
    the upload, verify, verify-hash and files handlers, the multer
    middleware in front of the routes that take a file and the error
    handler behind them), of the hashing it
    delegates to Node's [crypto] module (SHA-256 and SHA-1 as standardised in
    FIPS 180-4), of the audit-trail filter of [src/components/AuditTrail.tsx]
    and of the [uploadFile] entry point of [FileIntegrity.sol]. Beyond the
    ledger core it covers the remaining routes of the backend, the other
    functions of the contract, the hash form of the verification component
    and the abbreviations shown by the audit trail and the wallet panel.

    JavaScript strings are modelled by [string], one [ascii] per UTF-16 code
    unit, which covers the code units up to U+00FF; a file's content is a
    [list byte]; JavaScript numbers that the code only ever uses as integers
    (clock readings, sizes, counts) are [Z]. *)

From Stdlib Require Import ZArith List String Ascii Strings.Byte Bool Lia.
From stdpp Require Import base list strings pretty gmap.

Local Open Scope Z_scope.

(** ** 32-bit words *)

Module Word32.

Definition modulus : Z := 2 ^ 32.

Definition wrap (x : Z) : Z := x mod modulus.

Definition add (x y : Z) : Z := wrap (x + y).

Definition not (x : Z) : Z := wrap (Z.lnot x).

Definition shr (n x : Z) : Z := Z.shiftr x n.

Definition rotr (n x : Z) : Z :=
  wrap (Z.lor (Z.shiftr x n) (Z.shiftl x (32 - n))).

Definition rotl (n x : Z) : Z :=
  wrap (Z.lor (Z.shiftl x n) (Z.shiftr x (32 - n))).

End Word32.

(** ** Bytes *)

Definition byte_to_Z (b : byte) : Z := Z.of_N (Byte.to_N b).

Definition byte_of_Z (z : Z) : byte :=
  match Byte.of_N (Z.to_N (z mod 256)) with
  | Some b => b
  | None => x00
  end.

(** Big-endian decoding of four bytes, and encoding of the low [8 * n] bits. *)
Definition be32 (b0 b1 b2 b3 : byte) : Z :=
  Z.lor (Z.shiftl (byte_to_Z b0) 24)
        (Z.lor (Z.shiftl (byte_to_Z b1) 16)
               (Z.lor (Z.shiftl (byte_to_Z b2) 8) (byte_to_Z b3))).

Fixpoint be_bytes (n : nat) (x : Z) : list byte :=
  match n with
  | O => []
  | S n' => byte_of_Z (Z.shiftr x (8 * Z.of_nat n')) :: be_bytes n' x
  end.

Fixpoint words_of_bytes (bs : list byte) : list Z :=
  match bs with
  | b0 :: b1 :: b2 :: b3 :: rest => be32 b0 b1 b2 b3 :: words_of_bytes rest
  | _ => []
  end.

(** ** Hexadecimal rendering ([digest('hex')]) *)

Definition hex_digit (d : Z) : ascii :=
  match d mod 16 with
  | 0 => "0" | 1 => "1" | 2 => "2" | 3 => "3"
  | 4 => "4" | 5 => "5" | 6 => "6" | 7 => "7"
  | 8 => "8" | 9 => "9" | 10 => "a" | 11 => "b"
  | 12 => "c" | 13 => "d" | 14 => "e" | _ => "f"
  end%char.

Definition hex_of_byte (b : byte) : list ascii :=
  [hex_digit (byte_to_Z b / 16); hex_digit (byte_to_Z b)].

Definition hex_of_bytes (bs : list byte) : string :=
  string_of_list_ascii (flat_map hex_of_byte bs).

Definition is_lower_hex (c : ascii) : bool :=
  let n := Z.of_nat (nat_of_ascii c) in
  ((48 <=? n) && (n <=? 57)) || ((97 <=? n) && (n <=? 102)).

(** ** The Merkle-Damgard frame shared by SHA-1 and SHA-256

    A hash object keeps the chaining value, the bytes of the current
    incomplete 64-byte block and the number of bytes fed so far. *)

Section Streaming.

Context {St : Type}.
Variable compress : St -> list byte -> St.

Record Hash := mkHash {
  chaining : St;
  pending : list byte;
  fed : Z
}.

(** Consume every complete block of [buf]; [fuel] bounds the number of
    blocks. *)
Fixpoint absorb_blocks (fuel : nat) (H : St) (buf : list byte)
  : St * list byte :=
  match fuel with
  | O => (H, buf)
  | S fuel' =>
      if (length buf <? 64)%nat then (H, buf)
      else absorb_blocks fuel' (compress H (take 64 buf)) (drop 64 buf)
  end.

Definition absorb (H : St) (buf : list byte) : St * list byte :=
  absorb_blocks (length buf) H buf.

(** [hash.update(data)] *)
Definition update (h : Hash) (data : list byte) : Hash :=
  let '(H, rest) := absorb (chaining h) (pending h ++ data) in
  mkHash H rest (fed h + Z.of_nat (length data)).

(** The padding of FIPS 180-4 section 5.1.1: a one bit, zero bits up to
    56 modulo 64 bytes, and the message length in bits on 64 bits. *)
Definition padding (total : Z) : list byte :=
  x80 :: replicate (Z.to_nat ((55 - total) mod 64)) x00
      ++ be_bytes 8 ((8 * total) mod 2 ^ 64).

Definition finish (h : Hash) : St :=
  fst (absorb (chaining h) (pending h ++ padding (fed h))).

(** A hash object holds less than a block of pending bytes, as many as the
    count of bytes fed leaves modulo 64. *)
Definition hash_ok (h : Hash) : Prop :=
  (length (pending h) < 64)%nat
  /\ 0 <= fed h
  /\ fed h mod 64 = Z.of_nat (length (pending h)).

End Streaming.

Arguments Hash : clear implicits.
Arguments mkHash {St}.
Arguments chaining {St}.
Arguments pending {St}.
Arguments fed {St}.
Arguments hash_ok {St}.

(** ** SHA-256 *)

Module SHA256.
Import Word32.

Record state := mkState {
  ha : Z; hb : Z; hc : Z; hd : Z; he : Z; hf : Z; hg : Z; hh : Z
}.

Definition Ch (x y z : Z) : Z :=
  Z.lxor (Z.land x y) (Z.land (not x) z).
Definition Maj (x y z : Z) : Z :=
  Z.lxor (Z.land x y) (Z.lxor (Z.land x z) (Z.land y z)).
Definition Sigma0 (x : Z) : Z :=
  Z.lxor (rotr 2 x) (Z.lxor (rotr 13 x) (rotr 22 x)).
Definition Sigma1 (x : Z) : Z :=
  Z.lxor (rotr 6 x) (Z.lxor (rotr 11 x) (rotr 25 x)).
Definition sigma0 (x : Z) : Z :=
  Z.lxor (rotr 7 x) (Z.lxor (rotr 18 x) (shr 3 x)).
Definition sigma1 (x : Z) : Z :=
  Z.lxor (rotr 17 x) (Z.lxor (rotr 19 x) (shr 10 x)).

(** The round constants and the initial chaining value are, as FIPS 180-4
    defines them, the first 32 bits of the fractional parts of the cube
    roots of the first 64 primes and of the square roots of the first 8. *)
Definition primes : list Z :=
  [ 2; 3; 5; 7; 11; 13; 17; 19; 23; 29; 31; 37; 41; 43; 47; 53;
    59; 61; 67; 71; 73; 79; 83; 89; 97; 101; 103; 107; 109; 113; 127; 131;
    137; 139; 149; 151; 157; 163; 167; 173; 179; 181; 191; 193; 197; 199;
    211; 223; 227; 229; 233; 239; 241; 251; 257; 263; 269; 271; 277; 281;
    283; 293; 307; 311 ].

(** The integer cube root of [n < 2 ^ 120], one bit at a time. *)
Definition cube_root (n : Z) : Z :=
  fold_left (fun r b => let c := r + 2 ^ Z.of_nat b in
                        if c * c * c <=? n then c else r)
            (rev (seq 0 40)) 0.

Definition frac_cube_root (p : Z) : Z := wrap (cube_root (p * 2 ^ 96)).

Definition frac_square_root (p : Z) : Z := wrap (Z.sqrt (p * 2 ^ 64)).

Definition K : list Z := Eval vm_compute in map frac_cube_root primes.

Definition initial : state :=
  Eval vm_compute in
    mkState (frac_square_root 2) (frac_square_root 3) (frac_square_root 5)
            (frac_square_root 7) (frac_square_root 11) (frac_square_root 13)
            (frac_square_root 17) (frac_square_root 19).

(** The message schedule, built newest word first: the head of [ws] is
    W(t-1), so W(t-2), W(t-7), W(t-15) and W(t-16) sit at positions 1, 6,
    14 and 15. *)
Fixpoint extend (n : nat) (ws : list Z) : list Z :=
  match n with
  | O => ws
  | S n' =>
      let wt := add (add (add (sigma1 (nth 1 ws 0)) (nth 6 ws 0))
                         (sigma0 (nth 14 ws 0)))
                    (nth 15 ws 0) in
      extend n' (wt :: ws)
  end.

Definition schedule (block : list byte) : list Z :=
  rev (extend 48 (rev (words_of_bytes block))).

Definition round (s : state) (kw : Z * Z) : state :=
  let t1 := add (add (add (add (hh s) (Sigma1 (he s)))
                          (Ch (he s) (hf s) (hg s)))
                     (fst kw))
                (snd kw) in
  let t2 := add (Sigma0 (ha s)) (Maj (ha s) (hb s) (hc s)) in
  mkState (add t1 t2) (ha s) (hb s) (hc s)
          (add (hd s) t1) (he s) (hf s) (hg s).

Definition compress (H : state) (block : list byte) : state :=
  let s := fold_left round (combine K (schedule block)) H in
  mkState (add (ha H) (ha s)) (add (hb H) (hb s))
          (add (hc H) (hc s)) (add (hd H) (hd s))
          (add (he H) (he s)) (add (hf H) (hf s))
          (add (hg H) (hg s)) (add (hh H) (hh s)).

Definition output (s : state) : list byte :=
  be_bytes 4 (ha s) ++ be_bytes 4 (hb s) ++ be_bytes 4 (hc s)
    ++ be_bytes 4 (hd s) ++ be_bytes 4 (he s) ++ be_bytes 4 (hf s)
    ++ be_bytes 4 (hg s) ++ be_bytes 4 (hh s).

(** [crypto.createHash('sha256')] *)
Definition createHash : Hash state := mkHash initial [] 0.

(** [hash.digest('hex')] *)
Definition digest_hex (h : Hash state) : string :=
  hex_of_bytes (output (finish compress h)).

(** The digest of a whole message, fed in one piece. *)
Definition hex (msg : list byte) : string :=
  digest_hex (update compress createHash msg).

End SHA256.

(** ** SHA-1 ([crypto.createHash('sha1')], used for the mock IPFS hash) *)

Module SHA1.
Import Word32.

Record state := mkState { ha : Z; hb : Z; hc : Z; hd : Z; he : Z }.

Definition initial : state :=
  mkState 0x67452301 0xefcdab89 0x98badcfe 0x10325476 0xc3d2e1f0.

(** The head of [ws] is W(t-1); W(t-3), W(t-8), W(t-14) and W(t-16) sit
    at positions 2, 7, 13 and 15. *)
Fixpoint extend (n : nat) (ws : list Z) : list Z :=
  match n with
  | O => ws
  | S n' =>
      let wt := rotl 1 (Z.lxor (Z.lxor (nth 2 ws 0) (nth 7 ws 0))
                               (Z.lxor (nth 13 ws 0) (nth 15 ws 0))) in
      extend n' (wt :: ws)
  end.

Definition schedule (block : list byte) : list Z :=
  rev (extend 64 (rev (words_of_bytes block))).

Definition f (t : nat) (b c d : Z) : Z :=
  if (t <? 20)%nat then Z.lor (Z.land b c) (Z.land (not b) d)
  else if (t <? 40)%nat then Z.lxor b (Z.lxor c d)
  else if (t <? 60)%nat then
    Z.lor (Z.land b c) (Z.lor (Z.land b d) (Z.land c d))
  else Z.lxor b (Z.lxor c d).

Definition k (t : nat) : Z :=
  if (t <? 20)%nat then 0x5a827999
  else if (t <? 40)%nat then 0x6ed9eba1
  else if (t <? 60)%nat then 0x8f1bbcdc
  else 0xca62c1d6.

Definition round (ts : nat * state) (w : Z) : nat * state :=
  let '(t, s) := ts in
  let tmp := add (add (add (add (rotl 5 (ha s)) (f t (hb s) (hc s) (hd s)))
                           (he s))
                      w)
                 (k t) in
  (S t, mkState tmp (ha s) (rotl 30 (hb s)) (hc s) (hd s)).

Definition compress (H : state) (block : list byte) : state :=
  let s := snd (fold_left round (schedule block) (O, H)) in
  mkState (add (ha H) (ha s)) (add (hb H) (hb s)) (add (hc H) (hc s))
          (add (hd H) (hd s)) (add (he H) (he s)).

Definition output (s : state) : list byte :=
  be_bytes 4 (ha s) ++ be_bytes 4 (hb s) ++ be_bytes 4 (hc s)
    ++ be_bytes 4 (hd s) ++ be_bytes 4 (he s).

Definition createHash : Hash state := mkHash initial [] 0.

Definition digest_hex (h : Hash state) : string :=
  hex_of_bytes (output (finish compress h)).

Definition hex (msg : list byte) : string :=
  digest_hex (update compress createHash msg).

End SHA1.

(** ** JavaScript values that cross the HTTP boundary *)

(** JSON values: request bodies parsed by [express.json()] and the objects
    handed to [res.json]. An object keeps its fields in the order written. *)
#[local] Set Warnings "-register-all".

Inductive json : Type :=
| JNull
| JBool (b : bool)
| JNum (n : Z)
| JStr (s : string)
| JArr (items : list json)
| JObj (fields : list (string * json)).

(** Property access [obj.k]; [None] stands for [undefined]. *)
Definition field (k : string) (j : json) : option json :=
  match j with
  | JObj fields =>
      match find (fun kv => String.eqb (fst kv) k) fields with
      | Some kv => Some (snd kv)
      | None => None
      end
  | _ => None
  end.

(** ToBoolean, as applied by [!v] and [if (v)]. *)
Definition truthy (v : option json) : bool :=
  match v with
  | None => false
  | Some JNull => false
  | Some (JBool b) => b
  | Some (JNum n) => negb (n =? 0)
  | Some (JStr s) => negb (String.eqb s "")
  | Some (JArr _) => true
  | Some (JObj _) => true
  end.

(** [s === v] for a string [s]: true only when [v] is the same string. *)
Definition strict_eq_string (s : string) (v : option json) : bool :=
  match v with
  | Some (JStr t) => String.eqb s t
  | _ => false
  end.

(** The UTF-8 bytes of a string, as [hash.update(string)] takes them. *)
Definition utf8_char (c : ascii) : list byte :=
  let n := Z.of_nat (nat_of_ascii c) in
  if n <? 128 then [byte_of_Z n]
  else [byte_of_Z (Z.lor 192 (Z.shiftr n 6)); byte_of_Z (Z.lor 128 (Z.land n 63))].

Definition utf8 (s : string) : list byte :=
  flat_map utf8_char (list_ascii_of_string s).

(** [Number.prototype.toString] on an integer: its decimal digits. *)
Definition toString (n : Z) : string := pretty n.

(** [s.substring(start, stop)]: both indices are clamped to the length of
    [s] (a negative one to 0) and swapped when [start] exceeds [stop]. *)
Definition js_substring (s : string) (start stop : Z) : string :=
  let len := Z.of_nat (String.length s) in
  let a := Z.max 0 (Z.min start len) in
  let b := Z.max 0 (Z.min stop len) in
  substring (Z.to_nat (Z.min a b)) (Z.to_nat (Z.max a b - Z.min a b)) s.

(** [s.substring(start)]: up to the end of [s]. *)
Definition js_substring_from (s : string) (start : Z) : string :=
  js_substring s start (Z.of_nat (String.length s)).

(** [Date.prototype.toISOString] for the time value [t] (milliseconds since
    the epoch, proleptic Gregorian calendar, UTC), within the range of time
    values a [Date] can hold, as every clock reading is. *)
Module Date.

Definition msPerDay : Z := 86400000.

(** Year, month and day of the day numbered [days] from 1970-01-01. *)
Definition civil (days : Z) : Z * Z * Z :=
  let z := days + 719468 in
  let era := z / 146097 in
  let doe := z - era * 146097 in
  let yoe := (doe - doe / 1460 + doe / 36524 - doe / 146096) / 365 in
  let doy := doe - (365 * yoe + yoe / 4 - yoe / 100) in
  let mp := (5 * doy + 2) / 153 in
  let d := doy - (153 * mp + 2) / 5 + 1 in
  let m := if mp <? 10 then mp + 3 else mp - 9 in
  let y := yoe + era * 400 + (if m <=? 2 then 1 else 0) in
  (y, m, d).

(** [n] written on exactly [width] decimal digits (low digits kept). *)
Fixpoint digits (width : nat) (n : Z) : string :=
  match width with
  | O => ""
  | S w => digits w (n / 10) +:+ toString (n mod 10)
  end.

Definition year (y : Z) : string :=
  if (0 <=? y) && (y <=? 9999) then digits 4 y
  else if y <? 0 then "-" +:+ digits 6 (- y)
  else "+" +:+ digits 6 y.

Definition toISOString (t : Z) : string :=
  let days := t / msPerDay in
  let ms := t mod msPerDay in
  let '(y, m, d) := civil days in
  year y +:+ "-" +:+ digits 2 m +:+ "-" +:+ digits 2 d
    +:+ "T" +:+ digits 2 (ms / 3600000)
    +:+ ":" +:+ digits 2 (ms / 60000 mod 60)
    +:+ ":" +:+ digits 2 (ms / 1000 mod 60)
    +:+ "." +:+ digits 3 (ms mod 1000) +:+ "Z".

End Date.

(** ** The [Map] holding the records

    A JavaScript [Map] iterates in insertion order; [set] on a key that is
    already present replaces the value and keeps the key's position. *)
Module JsMap.

Section Ops.
Context {V : Type}.

Definition t : Type := list (string * V).

Definition empty : t := [].

Fixpoint set (k : string) (v : V) (m : t) : t :=
  match m with
  | [] => [(k, v)]
  | (k', v') :: rest =>
      if String.eqb k' k then (k, v) :: rest
      else (k', v') :: set k v rest
  end.

Fixpoint get (k : string) (m : t) : option V :=
  match m with
  | [] => None
  | (k', v') :: rest => if String.eqb k' k then Some v' else get k rest
  end.

Definition keys (m : t) : list string := map fst m.

Definition values (m : t) : list V := map snd m.

End Ops.

Arguments t : clear implicits.

End JsMap.

(** ** What the handlers receive from multer and the file system *)

(** What [fs.createReadStream(path)] delivers: ['data'] chunks in order,
    then either ['end'] ([failure = None]) or ['error'] with a message. *)
Record ReadStream := mkStream {
  chunks : list (list byte);
  failure : option string
}.

(** The bytes a stream delivers. *)
Definition content (s : ReadStream) : list byte := concat (chunks s).

(** A promise once settled. *)
Inductive Settled (A : Type) : Type :=
| Resolved (value : A)
| Rejected (message : string).
Arguments Resolved {A}.
Arguments Rejected {A}.

(** [req.file] as multer's disk storage fills it in. *)
Module Multer.
Record File := mkFile {
  originalname : string;
  path : string;
  size : Z;
  mimetype : string
}.
End Multer.

(** The answers of the file system for the path of [req.file]: what reading
    it back delivers, and the message of the exception [fs.unlinkSync]
    throws, if it throws. *)
Record Fs := mkFs {
  createReadStream : ReadStream;
  unlinkSync : option string
}.

(** The three clock readings an upload takes: [Date.now()] inside
    [simulateIPFSUpload], [Date.now()] for the record id and [new Date()]
    for the upload time. *)
Record Clock := mkClock {
  now_ipfs : Z;
  now_id : Z;
  now_date : Z
}.

(** ** [server.js] *)

Module Server.

(** [calculateFileHash]: feed every chunk to a SHA-256 hash object and
    resolve with its hex digest on ['end']; reject on ['error']. *)
Definition calculateFileHash (stream : ReadStream) : Settled string :=
  let hash := fold_left (update SHA256.compress) (chunks stream)
                        SHA256.createHash in
  match failure stream with
  | None => Resolved (SHA256.digest_hex hash)
  | Some message => Rejected message
  end.

(** [simulateIPFSUpload] *)
Definition simulateIPFSUpload (filename : string) (now : Z) : string :=
  let mockHash := SHA1.hex (utf8 (filename +:+ toString now)) in
  "Qm" +:+ substring 0 44 mockHash.

Record FileRecord := mkRecord {
  id : string;
  originalName : string;
  filePath : string;
  fileHash : string;
  ipfsHash : string;
  description : string;
  uploadTime : string;
  size : Z;
  mimetype : string
}.

Record Response := respond {
  status : Z;
  body : json
}.

(** [res.json(x)] answers with status 200. *)
Definition res_json (x : json) : Response := respond 200 x.

(** Handlers run against the module-level [fileRecords] map. *)
Definition Handler (A : Type) : Type :=
  JsMap.t FileRecord -> A * JsMap.t FileRecord.

Definition ret {A} (a : A) : Handler A := fun m => (a, m).

Definition bind {A B} (h : Handler A) (k : A -> Handler B) : Handler B :=
  fun m => let '(a, m') := h m in k a m'.

Notation "'let*' x := h 'in' k" := (bind h (fun x => k))
  (at level 10, x name, h at level 100, k at level 200).
Notation "'run' h 'in' k" := (bind h (fun _ => k))
  (at level 10, h at level 100, k at level 200).

Definition fileRecords_set (k : string) (r : FileRecord) : Handler unit :=
  fun m => (tt, JsMap.set k r m).

Definition fileRecords_values : Handler (list FileRecord) :=
  fun m => (JsMap.values m, m).

(** The object sent back by the upload and listed by the audit trail:
    the record without its [filePath]. *)
Definition summary (r : FileRecord) : json :=
  JObj [ ("id", JStr (id r));
         ("originalName", JStr (originalName r));
         ("fileHash", JStr (fileHash r));
         ("ipfsHash", JStr (ipfsHash r));
         ("description", JStr (description r));
         ("uploadTime", JStr (uploadTime r));
         ("size", JNum (size r));
         ("mimetype", JStr (mimetype r)) ].

(** The [data] object of a positive verification. *)
Definition match_data (r : FileRecord) : json :=
  JObj [ ("id", JStr (id r));
         ("originalName", JStr (originalName r));
         ("fileHash", JStr (fileHash r));
         ("uploadTime", JStr (uploadTime r));
         ("description", JStr (description r)) ].

Definition failed (error details : string) : Response :=
  respond 500 (JObj [ ("error", JStr error); ("details", JStr details) ]).

(** The [fileRecord] object an upload builds. *)
Definition new_record (f : Multer.File) (body_description : option string)
    (clock : Clock) (fileHash : string) : FileRecord :=
  let description := default "" body_description in
  let ipfsHash :=
    simulateIPFSUpload (Multer.originalname f) (now_ipfs clock) in
  mkRecord (toString (now_id clock))
           (Multer.originalname f)
           (Multer.path f)
           fileHash
           ipfsHash
           description
           (Date.toISOString (now_date clock))
           (Multer.size f)
           (Multer.mimetype f).

(** [app.post('/api/upload')] *)
Definition upload (file : option Multer.File) (fs : Fs)
    (body_description : option string) (clock : Clock)
  : Handler Response :=
  match file with
  | None => ret (respond 400 (JObj [ ("error", JStr "No file uploaded") ]))
  | Some f =>
      match calculateFileHash (createReadStream fs) with
      | Rejected message => ret (failed "Failed to process file upload" message)
      | Resolved fileHash =>
          let fileRecord := new_record f body_description clock fileHash in
          run fileRecords_set (id fileRecord) fileRecord in
          ret (res_json (JObj [
            ("success", JBool true);
            ("message", JStr "File uploaded and hashed successfully");
            ("data", summary fileRecord) ]))
      end
  end.

(** [app.post('/api/verify')] *)
Definition verify (file : option Multer.File) (fs : Fs)
  : Handler Response :=
  match file with
  | None =>
      ret (respond 400 (JObj [ ("error", JStr "No file provided for verification") ]))
  | Some f =>
      match calculateFileHash (createReadStream fs) with
      | Rejected message => ret (failed "Failed to verify file" message)
      | Resolved calculatedHash =>
          match unlinkSync fs with
          | Some message => ret (failed "Failed to verify file" message)
          | None =>
              let* records := fileRecords_values in
              match find (fun record =>
                            String.eqb (fileHash record) calculatedHash)
                         records with
              | Some matchingRecord =>
                  ret (res_json (JObj [
                    ("success", JBool true);
                    ("isValid", JBool true);
                    ("message", JStr "File integrity verified successfully");
                    ("data", match_data matchingRecord) ]))
              | None =>
                  ret (res_json (JObj [
                    ("success", JBool true);
                    ("isValid", JBool false);
                    ("message", JStr "File not found or has been tampered with");
                    ("calculatedHash", JStr calculatedHash) ]))
              end
          end
      end
  end.

(** [app.post('/api/verify-hash')]; the argument is [req.body.fileHash]. *)
Definition verify_hash (wanted : option json) : Handler Response :=
  if negb (truthy wanted) then
    ret (respond 400 (JObj [ ("error", JStr "File hash is required") ]))
  else
    let* records := fileRecords_values in
    match find (fun record => strict_eq_string (fileHash record) wanted)
               records with
    | Some matchingRecord =>
        ret (res_json (JObj [
          ("success", JBool true);
          ("isValid", JBool true);
          ("message", JStr "File hash found in records");
          ("data", match_data matchingRecord) ]))
    | None =>
        ret (res_json (JObj [
          ("success", JBool true);
          ("isValid", JBool false);
          ("message", JStr "File hash not found in records") ]))
    end.

(** [app.get('/api/files')] *)
Definition files : Handler Response :=
  let* records := fileRecords_values in
  let files := map summary records in
  ret (res_json (JObj [
    ("success", JBool true);
    ("count", JNum (Z.of_nat (length files)));
    ("data", JArr files) ])).

(** One request, and the server as a step function over requests. *)
Inductive Request : Type :=
| PostUpload (file : option Multer.File) (fs : Fs)
             (body_description : option string) (clock : Clock)
| PostVerify (file : option Multer.File) (fs : Fs)
| PostVerifyHash (fileHash_ : option json)
| GetFiles.

Definition handle (r : Request) : Handler Response :=
  match r with
  | PostUpload file fs d clock => upload file fs d clock
  | PostVerify file fs => verify file fs
  | PostVerifyHash h => verify_hash h
  | GetFiles => files
  end.

(** Serve the requests in order; the responses come back in order. *)
Fixpoint serve (rs : list Request) : Handler (list Response) :=
  match rs with
  | [] => ret []
  | r :: rest =>
      let* a := handle r in
      let* others := serve rest in
      ret (a :: others)
  end.

(** The [filename] callback of the disk storage: the name under which an
    upload received at [timestamp] is kept in [./uploads]. *)
Definition storage_filename (timestamp : Z) (originalname : string) : string :=
  toString timestamp +:+ "-" +:+ originalname.

(** [app.get('/api/health')] *)
Definition health (now : Z) : Handler Response :=
  ret (res_json (JObj [
    ("status", JStr "OK");
    ("message", JStr "File Integrity API is running");
    ("timestamp", JStr (Date.toISOString now)) ])).

Definition fileRecords_get (k : string) : Handler (option FileRecord) :=
  fun m => (JsMap.get k m, m).

(** [app.get('/api/files/:id')]; the argument is [req.params.id]. *)
Definition getFile (id_param : string) : Handler Response :=
  let* found := fileRecords_get id_param in
  match found with
  | None => ret (respond 404 (JObj [ ("error", JStr "File not found") ]))
  | Some record =>
      ret (res_json (JObj [
        ("success", JBool true);
        ("data", summary record) ]))
  end.

(** [app.post('/api/calculate-hash')] *)
Definition calculate_hash (file : option Multer.File) (fs : Fs)
  : Handler Response :=
  match file with
  | None => ret (respond 400 (JObj [ ("error", JStr "No file provided") ]))
  | Some f =>
      match calculateFileHash (createReadStream fs) with
      | Rejected message => ret (failed "Failed to calculate file hash" message)
      | Resolved fileHash =>
          match unlinkSync fs with
          | Some message =>
              ret (failed "Failed to calculate file hash" message)
          | None =>
              ret (res_json (JObj [
                ("success", JBool true);
                ("fileHash", JStr fileHash);
                ("fileName", JStr (Multer.originalname f));
                ("size", JNum (Multer.size f)) ]))
          end
      end
  end.

(** The 404 handler at the end of the chain. *)
Definition not_found : Handler Response :=
  ret (respond 404 (JObj [ ("error", JStr "Endpoint not found") ])).

(** Every route of the application. *)
Inductive Endpoint : Type :=
| Ledger (r : Request)
| GetFile (id_param : string)
| PostCalculateHash (file : option Multer.File) (fs : Fs)
| GetHealth (now : Z)
| Elsewhere.

Definition route (e : Endpoint) : Handler Response :=
  match e with
  | Ledger r => handle r
  | GetFile id_param => getFile id_param
  | PostCalculateHash file fs => calculate_hash file fs
  | GetHealth now => health now
  | Elsewhere => not_found
  end.

Fixpoint serve_all (es : list Endpoint) : Handler (list Response) :=
  match es with
  | [] => ret []
  | e :: rest =>
      let* a := route e in
      let* others := serve_all rest in
      ret (a :: others)
  end.

End Server.

(** ** The routes that take a file

    [upload.single('file')] stands in front of the callbacks of
    [/api/upload], [/api/verify] and [/api/calculate-hash], and the
    error-handling middleware at the end of the chain answers what it
    passes to [next(error)]. A request is a well-formed multipart body,
    seen as the list of its file parts in the order they arrive. *)

Module Route.

(** A file part as busboy hands it to multer: the name of the field it was
    sent under, its file name (without directories), its type, the number
    of bytes it carries, and the reading of [Date.now()] that the
    [filename] callback of the disk storage takes for it. *)
Record Part := mkPart {
  fieldname : string;
  filename : string;
  mimetype : string;
  bytes : Z;
  received : Z
}.

(** [limits.fileSize] *)
Definition fileSize : Z := 10 * 1024 * 1024.

(** What the middleware hands on: [next()], with [req.file] set or left
    undefined, or [next(error)] with the message of the error. *)
Inductive Parsed : Type :=
| Delivered (file : option Multer.File)
| Aborted (message : string).

(** [req.file] for a part that the disk storage has written to
    [./uploads]. *)
Definition stored (p : Part) : Multer.File :=
  Multer.mkFile (filename p)
                ("uploads/"
                 +:+ Server.storage_filename (received p) (filename p))
                (bytes p)
                (mimetype p).

Section Limit.

(** Whether a part of exactly [fileSize] bytes still passes: the releases
    of busboy, which counts the bytes for multer, differ in this. *)
Variable at_limit_passes : bool.

Definition within_limit (p : Part) : bool :=
  if at_limit_passes then bytes p <=? fileSize else bytes p <? fileSize.

(** The parts in turn. A part without a file name is skipped; a part under
    a field that expects no (further) file is refused as unexpected
    before it is stored; a part that outgrows [limits.fileSize] is refused
    as too large; [fileFilter] lets every other part through to the disk
    storage. *)
Fixpoint accept (field : string) (filesLeft : nat)
    (kept : option Multer.File) (parts : list Part) : Parsed :=
  match parts with
  | [] => Delivered kept
  | p :: rest =>
      if String.eqb (filename p) "" then accept field filesLeft kept rest
      else if negb (String.eqb (fieldname p) field) then
        Aborted "Unexpected field"
      else
        match filesLeft with
        | O => Aborted "Unexpected field"
        | S filesLeft' =>
            if within_limit p then
              accept field filesLeft' (Some (stored p)) rest
            else Aborted "File too large"
        end
  end.

(** [upload.single(field)] *)
Definition single (field : string) (parts : list Part) : Parsed :=
  accept field 1 None parts.

(** The error-handling middleware. *)
Definition error_handler (message : string) : Server.Response :=
  Server.respond 500 (JObj [ ("error", JStr "Internal server error");
                             ("details", JStr message) ]).

(** A route [app.post(path, upload.single('file'), callback)]. *)
Definition post (parts : list Part)
    (callback : option Multer.File -> Server.Handler Server.Response)
  : Server.Handler Server.Response :=
  match single "file" parts with
  | Aborted message => Server.ret (error_handler message)
  | Delivered file => callback file
  end.

(** [POST /api/upload] *)
Definition post_upload (parts : list Part) (fs : Fs)
    (body_description : option string) (clock : Clock)
  : Server.Handler Server.Response :=
  post parts (fun file => Server.upload file fs body_description clock).


(** [POST /api/calculate-hash] *)
Definition post_calculate_hash (parts : list Part) (fs : Fs)
  : Server.Handler Server.Response :=
  post parts (fun file => Server.calculate_hash file fs).

End Limit.

End Route.

(** ** The audit-trail view ([AuditTrail.tsx]) *)

Module AuditTrail.

(** The [FileRecord] interface: what the component keeps of each element
    of the [data] array of [GET /api/files]. *)
Record FileRecord := mkFileRecord {
  id : string;
  originalName : string;
  fileHash : string;
  ipfsHash : string;
  description : string;
  uploadTime : string;
  size : Z;
  mimetype : string
}.

Definition to_json (r : FileRecord) : json :=
  JObj [ ("id", JStr (id r));
         ("originalName", JStr (originalName r));
         ("fileHash", JStr (fileHash r));
         ("ipfsHash", JStr (ipfsHash r));
         ("description", JStr (description r));
         ("uploadTime", JStr (uploadTime r));
         ("size", JNum (size r));
         ("mimetype", JStr (mimetype r)) ].

(** The element the component holds for a record of the server. *)
Definition of_record (r : Server.FileRecord) : FileRecord :=
  mkFileRecord (Server.id r) (Server.originalName r) (Server.fileHash r)
               (Server.ipfsHash r) (Server.description r)
               (Server.uploadTime r) (Server.size r) (Server.mimetype r).

Definition code (c : ascii) : Z := Z.of_nat (nat_of_ascii c).

(** [String.prototype.toLowerCase] on code units up to U+00FF: the
    letters A-Z and the Latin-1 capitals U+00C0-U+00DE (but not the
    multiplication sign U+00D7) move 32 places up. *)
Definition lower_char (c : ascii) : ascii :=
  let n := code c in
  if ((65 <=? n) && (n <=? 90))
     || ((192 <=? n) && (n <=? 214))
     || ((216 <=? n) && (n <=? 222))
  then ascii_of_nat (Z.to_nat (n + 32))
  else c.

Fixpoint toLowerCase (s : string) : string :=
  match s with
  | EmptyString => EmptyString
  | String c rest => String (lower_char c) (toLowerCase rest)
  end.

(** White space and line terminators among the code units up to U+00FF:
    TAB, LF, VT, FF, CR, SP and NBSP. *)
Definition is_white_space (c : ascii) : bool :=
  let n := code c in
  ((9 <=? n) && (n <=? 13)) || (n =? 32) || (n =? 160).

Fixpoint trimStart (s : string) : string :=
  match s with
  | EmptyString => EmptyString
  | String c rest => if is_white_space c then trimStart rest else s
  end.

Definition trimEnd (s : string) : string :=
  String.rev (trimStart (String.rev s)).

(** [String.prototype.trim] *)
Definition trim (s : string) : string := trimEnd (trimStart s).

(** [s.includes(t)]: [t] occurs in [s] as a contiguous substring. *)
Fixpoint includes (s t : string) : bool :=
  String.prefix t s
  || match s with
     | EmptyString => false
     | String _ rest => includes rest t
     end.

(** The predicate of the filter effect. *)
Definition matches (searchTerm : string) (file : FileRecord) : bool :=
  includes (toLowerCase (originalName file)) (toLowerCase searchTerm)
  || includes (toLowerCase (description file)) (toLowerCase searchTerm)
  || includes (toLowerCase (fileHash file)) (toLowerCase searchTerm).

(** The filter effect: what [filteredFiles] is set to for the current
    [files] and [searchTerm]. *)
Definition filteredFiles (files : list FileRecord) (searchTerm : string)
  : list FileRecord :=
  if String.eqb (trim searchTerm) "" then files
  else List.filter (matches searchTerm) files.

(** The rows shown for a table of the server: [loadFiles] stores the
    [data] array of [GET /api/files] in [files]. *)
Definition listRecords (searchTerm : string)
    (fileRecords : JsMap.t Server.FileRecord) : list FileRecord :=
  filteredFiles (map of_record (JsMap.values fileRecords)) searchTerm.

(** [formatHash]: the first and the last eight characters of a hash. *)
Definition formatHash (hash : string) : string :=
  js_substring hash 0 8 +:+ "..."
    +:+ js_substring_from hash (Z.of_nat (String.length hash) - 8).

End AuditTrail.

(** ** [FileIntegrity.sol]: the upload entry point of the contract *)

Module FileIntegrity.

Definition uint256_max : N := (2 ^ 256 - 1)%N.

Record FileRecord := mkRecord {
  fileName : string;
  fileHash : string;
  ipfsHash : string;
  uploader : N;
  timestamp : N;
  description : string;
  exists_ : bool
}.

Inductive Event : Type :=
| FileUploaded (fileId : N) (fileName fileHash ipfsHash : string)
               (uploader timestamp : N)
| FileVerified (fileId : N) (fileHash : string) (isValid : bool)
               (verifier : N).

Record Storage := mkStorage {
  files : gmap N FileRecord;
  hashToFileId : gmap string N;
  uploaderFiles : gmap N (list N);
  currentFileId : N;
  events : list Event
}.

Definition deployed : Storage := mkStorage ∅ ∅ ∅ 0%N [].

(** A call either reverts with a reason, leaving storage as it was, or
    returns a value and the new storage. *)
Inductive Outcome (A : Type) : Type :=
| Reverted (reason : string)
| Returned (value : A) (storage : Storage).
Arguments Reverted {A}.
Arguments Returned {A}.

(** A mapping reads as zero where nothing was written. *)
Definition hashToFileId_at (s : Storage) (h : string) : N :=
  default 0%N (hashToFileId s !! h).

(** [currentFileId++] is checked arithmetic: at the largest [uint256] the
    call panics, which reverts it. *)
Definition uploadFile (sender now : N)
    (_fileName _fileHash _ipfsHash _description : string) (s : Storage)
  : Outcome N :=
  if negb (0 <? String.length _fileName)%nat then
    Reverted "File name cannot be empty"
  else if negb (0 <? String.length _fileHash)%nat then
    Reverted "File hash cannot be empty"
  else if negb (hashToFileId_at s _fileHash =? 0)%N then
    Reverted "File with this hash already exists"
  else if (currentFileId s =? uint256_max)%N then
    Reverted "panic: arithmetic overflow"
  else
    let fileId := (currentFileId s + 1)%N in
    Returned fileId
      (mkStorage
         (<[fileId := mkRecord _fileName _fileHash _ipfsHash sender now
                               _description true]> (files s))
         (<[_fileHash := fileId]> (hashToFileId s))
         (<[sender := default [] (uploaderFiles s !! sender) ++ [fileId]]>
            (uploaderFiles s))
         fileId
         (events s ++ [FileUploaded fileId _fileName _fileHash _ipfsHash
                                    sender now])).

Definition fileHashExists (_fileHash : string) (s : Storage) : bool :=
  negb (hashToFileId_at s _fileHash =? 0)%N.

(** [files[id]]: a slot never written reads as the zero record. *)
Definition files_at (s : Storage) (fileId : N) : FileRecord :=
  default (mkRecord "" "" "" 0%N 0%N "" false) (files s !! fileId).

Definition uploaderFiles_at (s : Storage) (who : N) : list N :=
  default [] (uploaderFiles s !! who).

(** [verifyFile]: a transaction, since it emits [FileVerified]. *)
Definition verifyFile (sender : N) (_fileHash : string) (s : Storage)
  : Outcome (bool * N * N * N) :=
  let fileId := hashToFileId_at s _fileHash in
  let isValid := negb (fileId =? 0)%N in
  let file := files_at s fileId in
  let uploader_ := if isValid then uploader file else 0%N in
  let timestamp_ := if isValid then timestamp file else 0%N in
  Returned (isValid, fileId, uploader_, timestamp_)
    (mkStorage (files s) (hashToFileId s) (uploaderFiles s) (currentFileId s)
               (events s ++ [FileVerified fileId _fileHash isValid sender])).

(** [getFileById], guarded by the [fileExists] modifier. *)
Definition getFileById (_fileId : N) (s : Storage) : Outcome FileRecord :=
  if negb (exists_ (files_at s _fileId)) then Reverted "File does not exist"
  else Returned (files_at s _fileId) s.

Definition getFilesByUploader (_uploader : N) (s : Storage) : list N :=
  uploaderFiles_at s _uploader.

Definition getTotalFiles (s : Storage) : N := currentFileId s.

(** [getFileAuditTrail], guarded by the [fileExists] modifier. *)
Definition getFileAuditTrail (_fileId : N) (s : Storage)
  : Outcome (string * string * N * N * string) :=
  if negb (exists_ (files_at s _fileId)) then Reverted "File does not exist"
  else
    let file := files_at s _fileId in
    Returned (fileName file, fileHash file, uploader file, timestamp file,
              description file) s.

(** The two transactions, and the storage a sequence of them leaves; a
    reverted transaction leaves the storage as it was. *)
Inductive Tx : Type :=
| UploadFile (sender now : N)
             (_fileName _fileHash _ipfsHash _description : string)
| VerifyFile (sender : N) (_fileHash : string).

Definition storage_after {A : Type} (o : Outcome A) (before : Storage)
  : Storage :=
  match o with
  | Reverted _ => before
  | Returned _ s => s
  end.

Definition transact (s : Storage) (tx : Tx) : Storage :=
  match tx with
  | UploadFile sender now n h i d =>
      storage_after (uploadFile sender now n h i d s) s
  | VerifyFile sender h => storage_after (verifyFile sender h s) s
  end.

Definition history (txs : list Tx) : Storage := fold_left transact txs deployed.

End FileIntegrity.

(** ** The verification form ([FileVerification]) *)

Module FileVerification.

(** What a click on a verify button leads to: an error shown without any
    request, or a request sent to the backend. *)
Inductive Attempt : Type :=
| Refused (error : string)
| Sent (request : Server.Request).

(** [verifyByHash] *)
Definition verifyByHash (hashInput : string) : Attempt :=
  if String.eqb (AuditTrail.trim hashInput) "" then
    Refused "Please enter a file hash"
  else
    Sent (Server.PostVerifyHash (Some (JStr (AuditTrail.trim hashInput)))).

(** [verifyFileUpload]; [selectedFile] is the chosen file as it reaches the
    backend. *)
Definition verifyFileUpload (selectedFile : option (Multer.File * Fs))
  : Attempt :=
  match selectedFile with
  | None => Refused "Please select a file first"
  | Some (f, fs) => Sent (Server.PostVerify (Some f) fs)
  end.

End FileVerification.

(** ** The wallet panel ([BlockchainConnection.tsx]) *)

Module BlockchainConnection.

(** [formatAddress]: the first six and the last four characters. *)
Definition formatAddress (address : string) : string :=
  js_substring address 0 6 +:+ "..."
    +:+ js_substring_from address (Z.of_nat (String.length address) - 4).

End BlockchainConnection.

(** ** Notions and sample requests used in the statements *)

Definition abc_whole : ReadStream :=
  mkStream [list_byte_of_string "abc"] None.

Definition abc_pieces : ReadStream :=
  mkStream [list_byte_of_string "a"; []; list_byte_of_string "bc"] None.

(** The [k] property of the [data] object of a response. *)
Definition data_field (k : string) (r : Server.Response) : option json :=
  match field "data" (Server.body r) with
  | Some data => field k data
  | None => None
  end.

(** The digest of what the file system delivers for a request. *)
Definition fingerprint (fs : Fs) : string :=
  SHA256.hex (content (createReadStream fs)).

Definition uploaded_body (r : Server.FileRecord) : json :=
  JObj [ ("success", JBool true);
         ("message", JStr "File uploaded and hashed successfully");
         ("data", Server.summary r) ].

Definition verified_body (message : string) (r : Server.FileRecord) : json :=
  JObj [ ("success", JBool true);
         ("isValid", JBool true);
         ("message", JStr message);
         ("data", Server.match_data r) ].

Definition reads (pieces : list (list byte)) : Fs :=
  mkFs (mkStream pieces None) None.

Definition demo_file : Multer.File :=
  Multer.mkFile "test.txt" "uploads/1752300000000-test.txt" 40 "text/plain".

Definition demo_fs : Fs :=
  reads [list_byte_of_string "This is a test document for verification"].

(** The same bytes, read back in two chunks. *)
Definition demo_fs_again : Fs :=
  reads [list_byte_of_string "This is a test document ";
         list_byte_of_string "for verification"].

Definition modified_fs : Fs :=
  reads [list_byte_of_string "This is a MODIFIED test document"].

Definition demo_clock : Clock :=
  mkClock 1752300000001 1752300000002 1752300000003.

Definition later_clock : Clock :=
  mkClock 1752300060001 1752300060002 1752300060003.

Definition demo_digest : string :=
  "9d5ca19ceead708bdc22eeb4fd0b5e567c4049f68f6c9ed31c39bbca6995e2aa".

(** The table after the demo document was uploaded once. *)
Definition demo_table : JsMap.t Server.FileRecord :=
  snd (Server.upload (Some demo_file) demo_fs (Some "Test file for demonstration")
                     demo_clock JsMap.empty).

(** The table after the demo document was uploaded a second time, a minute
    later: two records with one and the same [fileHash]. *)
Definition twice_table : JsMap.t Server.FileRecord :=
  snd (Server.upload (Some demo_file) demo_fs_again (Some "Second copy")
                     later_clock demo_table).

Definition first_record : Server.FileRecord :=
  Server.new_record demo_file (Some "Test file for demonstration") demo_clock
                    demo_digest.

Definition second_record : Server.FileRecord :=
  Server.new_record demo_file (Some "Second copy") later_clock demo_digest.

Definition modified_file : Multer.File :=
  Multer.mkFile "modified.txt" "uploads/1752300000002-modified.txt" 32
                "text/plain".

(** A second request served within the millisecond of [demo_clock]'s id. *)
Definition same_ms_clock : Clock :=
  mkClock 1752300000002 1752300000002 1752300000002.

Definition empty_file : Multer.File :=
  Multer.mkFile "empty.txt" "uploads/1752300000000-empty.txt" 0 "text/plain".

(** What one upload asks for, the request it makes and the record it
    leaves. *)
Record Submission := mkSubmission {
  sub_file : Multer.File;
  sub_fs : Fs;
  sub_description : option string;
  sub_clock : Clock
}.

Definition request_of (s : Submission) : Server.Request :=
  Server.PostUpload (Some (sub_file s)) (sub_fs s) (sub_description s)
                    (sub_clock s).

Definition record_of (s : Submission) : Server.FileRecord :=
  Server.new_record (sub_file s) (sub_description s) (sub_clock s)
                    (fingerprint (sub_fs s)).

Definition id_of (s : Submission) : string := toString (now_id (sub_clock s)).

(** The table after the demo document was uploaded without a description. *)
Definition plain_table : JsMap.t Server.FileRecord :=
  snd (Server.upload (Some demo_file) demo_fs None demo_clock JsMap.empty).

Definition modified_submission : Submission :=
  mkSubmission modified_file modified_fs (Some "Edited copy") later_clock.

Definition demo_submission : Submission :=
  mkSubmission demo_file demo_fs (Some "Test file for demonstration")
               demo_clock.

(** Whether a request is an upload whose record id is [k]. *)
Definition reuses_id (k : string) (req : Server.Request) : bool :=
  match req with
  | Server.PostUpload _ _ _ clock => String.eqb (toString (now_id clock)) k
  | _ => false
  end.

(** Every entry of the table sits under the id of its own record, and no id
    occurs twice. *)
Definition well_keyed (m : JsMap.t Server.FileRecord) : Prop :=
  Forall (fun kv => fst kv = Server.id (snd kv)) m
  /\ List.NoDup (JsMap.keys m).

(** A string of exactly 64 lowercase hexadecimal digits. *)
Definition is_digest (s : string) : Prop :=
  String.length s = 64%nat
  /\ forallb is_lower_hex (list_ascii_of_string s) = true.

(** A request stream that touches every route. *)
Definition busy_day : list Server.Endpoint :=
  [ Server.GetHealth 1752300000000;
    Server.Ledger (Server.PostUpload (Some demo_file) demo_fs
                     (Some "Test file for demonstration") demo_clock);
    Server.PostCalculateHash (Some modified_file) modified_fs;
    Server.Ledger (Server.PostUpload (Some modified_file) modified_fs None
                     same_ms_clock);
    Server.GetFile "1752300000002";
    Server.Ledger (Server.PostUpload (Some demo_file) demo_fs_again None
                     later_clock);
    Server.Ledger Server.GetFiles;
    Server.Elsewhere ].

(** The demo digest as a user might paste it: in capitals. *)
Definition shouted_digest : string :=
  "9D5CA19CEEAD708BDC22EEB4FD0B5E567C4049F68F6C9ED31C39BBCA6995E2AA".

(** The table after the requests of [busy_day]. *)
Definition busy_table : JsMap.t Server.FileRecord :=
  snd (Server.serve_all busy_day JsMap.empty).

(** Nothing but white space. *)
Definition blank (s : string) : bool :=
  forallb AuditTrail.is_white_space (list_ascii_of_string s).

(** No white space at all. *)
Definition spaceless (s : string) : bool :=
  forallb (fun c => negb (AuditTrail.is_white_space c))
          (list_ascii_of_string s).

(** How the three mappings and the counter of the contract hang together:
    the hash index points at records carrying that hash, every record sits
    at an id between 1 and the counter and is indexed by its hash, every
    such id holds a record, and the list of an uploader holds exactly the
    ids of the records that uploader registered. *)
Definition consistent (s : FileIntegrity.Storage) : Prop :=
  (forall (h : string) (fileId : N),
      FileIntegrity.hashToFileId s !! h = Some fileId ->
      fileId <> 0%N
      /\ exists r, FileIntegrity.files s !! fileId = Some r
                   /\ FileIntegrity.fileHash r = h)
  /\ (forall (fileId : N) (r : FileIntegrity.FileRecord),
         FileIntegrity.files s !! fileId = Some r ->
         (1 <= fileId <= FileIntegrity.currentFileId s)%N
         /\ FileIntegrity.exists_ r = true
         /\ FileIntegrity.hashToFileId s !! FileIntegrity.fileHash r
            = Some fileId)
  /\ (forall fileId : N,
         (1 <= fileId <= FileIntegrity.currentFileId s)%N ->
         is_Some (FileIntegrity.files s !! fileId))
  /\ (forall (who fileId : N),
         In fileId (FileIntegrity.uploaderFiles_at s who)
         <-> exists r, FileIntegrity.files s !! fileId = Some r
                      /\ FileIntegrity.uploader r = who).

(** Three uploads by two accounts, one of them refused as a duplicate, and
    two verifications, as in the contract's test suite. *)
Definition chain_log : list FileIntegrity.Tx :=
  [ FileIntegrity.UploadFile 11 1000 "doc1.pdf" "0x1111" "QmDoc1" "Document 1";
    FileIntegrity.UploadFile 11 1001 "doc2.pdf" "0x2222" "QmDoc2" "Document 2";
    FileIntegrity.VerifyFile 12 "0x2222";
    FileIntegrity.UploadFile 12 1002 "copy.pdf" "0x1111" "QmDoc9" "Duplicate";
    FileIntegrity.UploadFile 12 1003 "doc3.pdf" "0x3333" "QmDoc3" "Document 3";
    FileIntegrity.VerifyFile 11 "0x9999" ].

Definition doc1 : FileIntegrity.FileRecord :=
  FileIntegrity.mkRecord "doc1.pdf" "0x1111" "QmDoc1" 11 1000 "Document 1"
                         true.

Definition doc3 : FileIntegrity.FileRecord :=
  FileIntegrity.mkRecord "doc3.pdf" "0x3333" "QmDoc3" 12 1003 "Document 3"
                         true.

(** The record the busy day leaves for the demo document. *)
Definition busy_demo_record : Server.FileRecord :=
  Server.new_record demo_file None later_clock demo_digest.

(** A part without a file name. *)
Definition unnamed (p : Route.Part) : Prop := Route.filename p = "".

(** The request carries [p] as its one named file part, sent under the
    field [file] and within the size limit. *)
Definition sole_file (at_limit_passes : bool) (parts : list Route.Part)
    (p : Route.Part) : Prop :=
  exists pre post : list Route.Part,
    parts = pre ++ p :: post
    /\ Forall unnamed pre /\ Forall unnamed post
    /\ Route.filename p <> ""
    /\ Route.fieldname p = "file"
    /\ Route.within_limit at_limit_passes p = true.

(** The parts of four requests: the demo document, a file without content,
    a part whose file name is empty, and a file of eleven megabytes. *)
Definition demo_part : Route.Part :=
  Route.mkPart "file" "test.txt" "text/plain" 40 1752300000000.

Definition empty_part : Route.Part :=
  Route.mkPart "file" "empty.txt" "text/plain" 0 1752300000000.

Definition nameless_part : Route.Part :=
  Route.mkPart "file" "" "application/octet-stream" 40 1752300000000.

Definition large_part : Route.Part :=
  Route.mkPart "file" "large.bin" "application/octet-stream"
               (11 * 1024 * 1024) 1752300000000.

(** * Properties *)

(** ** Feeding a hash object in pieces *)

Lemma length_be_bytes (n : nat) (x : Z) : length (be_bytes n x) = n.
Proof. induction n as [|n IH]; simpl; [reflexivity | now rewrite IH]. Qed.

Section StreamingFacts.

Context {St : Type}.
Variable compress : St -> list byte -> St.

Lemma absorb_blocks_fuel (n m : nat) :
  forall (H : St) (buf : list byte),
    (length buf <= n)%nat -> (length buf <= m)%nat ->
    absorb_blocks compress n H buf = absorb_blocks compress m H buf.
Proof.
  revert m. induction n as [|n IH]; intros m H buf Hn Hm.
  - destruct buf; [|simpl in Hn; lia].
    destruct m; reflexivity.
  - simpl. destruct (Nat.ltb_spec (length buf) 64) as [Hlt|Hge].
    + destruct m; simpl; [reflexivity|].
      destruct (Nat.ltb_spec (length buf) 64); [reflexivity|lia].
    + destruct m as [|m]; [lia|]. simpl.
      destruct (Nat.ltb_spec (length buf) 64); [lia|].
      apply IH; rewrite length_drop; lia.
Qed.

Lemma absorb_short (H : St) (buf : list byte) :
  (length buf < 64)%nat -> absorb compress H buf = (H, buf).
Proof.
  intros Hlt. unfold absorb. destruct (length buf) eqn:E; [reflexivity|].
  simpl. rewrite E. destruct (Nat.ltb_spec (S n) 64); [reflexivity|lia].
Qed.

Lemma absorb_block (H : St) (buf : list byte) :
  (64 <= length buf)%nat ->
  absorb compress H buf
  = absorb compress (compress H (take 64 buf)) (drop 64 buf).
Proof.
  intros Hge. unfold absorb. destruct (length buf) eqn:E; [lia|].
  simpl. rewrite E. destruct (Nat.ltb_spec (S n) 64); [lia|].
  apply absorb_blocks_fuel; rewrite length_drop; lia.
Qed.

(** The bytes left pending never fill a block: the fuel is enough. *)
Lemma absorb_pending (buf : list byte) :
  forall H : St, (length (snd (absorb compress H buf)) < 64)%nat.
Proof.
  induction buf as [buf IH] using (induction_ltof1 _ (@length byte)).
  unfold ltof in IH. intros H.
  destruct (Nat.lt_ge_cases (length buf) 64) as [Hlt|Hge].
  - rewrite absorb_short by assumption. assumption.
  - rewrite absorb_block by assumption.
    apply IH. rewrite length_drop. lia.
Qed.

(** Absorbing [a ++ b] is absorbing [a], then what is left of it with
    [b]. *)
Lemma absorb_app (a b : list byte) :
  forall H : St,
    absorb compress H (a ++ b)
    = absorb compress (fst (absorb compress H a))
                      (snd (absorb compress H a) ++ b).
Proof.
  induction a as [a IH] using (induction_ltof1 _ (@length byte)).
  unfold ltof in IH. intros H.
  destruct (Nat.lt_ge_cases (length a) 64) as [Hlt|Hge].
  - rewrite (absorb_short H a) by assumption. reflexivity.
  - rewrite (absorb_block H a) by assumption.
    rewrite (absorb_block H (a ++ b)) by (rewrite length_app; lia).
    rewrite take_app_le, drop_app_le by lia.
    apply IH. rewrite length_drop. lia.
Qed.

Lemma update_app (h : Hash St) (a b : list byte) :
  update compress (update compress h a) b = update compress h (a ++ b).
Proof.
  unfold update.
  rewrite (app_assoc (pending h) a b).
  rewrite (absorb_app (pending h ++ a) b).
  destruct (absorb compress (chaining h) (pending h ++ a)) as [H rest].
  simpl.
  destruct (absorb compress H (rest ++ b)) as [H' rest'].
  f_equal. rewrite length_app. lia.
Qed.

Lemma fold_update (cs : list (list byte)) :
  forall (h : Hash St) (a : list byte),
    fold_left (update compress) cs (update compress h a)
    = update compress h (a ++ concat cs).
Proof.
  induction cs as [|c cs IH]; intros h a; simpl.
  - rewrite app_nil_r. reflexivity.
  - rewrite update_app, IH, app_assoc. reflexivity.
Qed.

(** A fresh hash object fed chunk by chunk holds what it holds after
    being fed the whole content at once. *)
Lemma fold_update_fresh (H0 : St) (cs : list (list byte)) :
  fold_left (update compress) cs (mkHash H0 [] 0)
  = update compress (mkHash H0 [] 0) (concat cs).
Proof.
  assert (E : mkHash H0 [] 0 = update compress (mkHash H0 [] 0) [])
    by reflexivity.
  rewrite E at 1. rewrite fold_update. reflexivity.
Qed.

Lemma absorb_rest_length (buf : list byte) :
  forall H : St,
    length (snd (absorb compress H buf)) = (length buf mod 64)%nat.
Proof.
  induction buf as [buf IH] using (induction_ltof1 _ (@length byte)).
  unfold ltof in IH. intros H.
  destruct (Nat.lt_ge_cases (length buf) 64) as [Hlt|Hge].
  - rewrite absorb_short by assumption. cbn [snd].
    symmetry. now apply Nat.mod_small.
  - rewrite absorb_block by assumption.
    rewrite IH by (rewrite length_drop; lia).
    rewrite length_drop.
    replace (length buf) with (length buf - 64 + 1 * 64)%nat at 2 by lia.
    now rewrite Nat.Div0.mod_add.
Qed.

Lemma update_ok (h : Hash St) (data : list byte) :
  hash_ok h -> hash_ok (update compress h data).
Proof.
  intros (Hlen & Hfed & Hmod). unfold update.
  pose proof (absorb_rest_length (pending h ++ data) (chaining h)) as Hrest.
  destruct (absorb compress (chaining h) (pending h ++ data)) as [H rest].
  cbn [snd] in Hrest. unfold hash_ok. cbn [pending fed].
  rewrite Hrest, length_app.
  split; [apply Nat.mod_upper_bound; lia|].
  split; [lia|].
  rewrite Nat2Z.inj_mod, Nat2Z.inj_add, <- Hmod.
  change (Z.of_nat 64) with 64.
  rewrite Zplus_mod_idemp_l. reflexivity.
Qed.

Lemma fold_update_ok (cs : list (list byte)) :
  forall h : Hash St, hash_ok h -> hash_ok (fold_left (update compress) cs h).
Proof.
  induction cs as [|c cs IH]; intros h Hh; simpl; [exact Hh|].
  apply IH. now apply update_ok.
Qed.

Lemma length_padding (total : Z) :
  Z.of_nat (length (padding total)) = 9 + (55 - total) mod 64.
Proof.
  unfold padding. cbn [length]. rewrite length_app, length_replicate.
  rewrite length_be_bytes.
  pose proof (Z.mod_pos_bound (55 - total) 64). lia.
Qed.

(** Finishing pads the pending bytes to whole blocks: none is left out of
    the digest. *)
Lemma finish_consumes_all (h : Hash St) :
  hash_ok h ->
  snd (absorb compress (chaining h) (pending h ++ padding (fed h))) = [].
Proof.
  intros (Hlen & Hfed & Hmod).
  apply length_zero_iff_nil.
  rewrite absorb_rest_length, length_app.
  apply Nat2Z.inj. rewrite Nat2Z.inj_mod, Nat2Z.inj_add, length_padding.
  rewrite <- Hmod. change (Z.of_nat 64) with 64. change (Z.of_nat 0) with 0.
  set (t := fed h) in *. clearbody t.
  Z.div_mod_to_equations. lia.
Qed.

End StreamingFacts.

(** ** The shape of a digest *)

Lemma hex_digit_lower (d : Z) : is_lower_hex (hex_digit d) = true.
Proof.
  unfold hex_digit.
  assert (Hd : d mod 16 = 0 \/ d mod 16 = 1 \/ d mod 16 = 2 \/ d mod 16 = 3
               \/ d mod 16 = 4 \/ d mod 16 = 5 \/ d mod 16 = 6
               \/ d mod 16 = 7 \/ d mod 16 = 8 \/ d mod 16 = 9
               \/ d mod 16 = 10 \/ d mod 16 = 11 \/ d mod 16 = 12
               \/ d mod 16 = 13 \/ d mod 16 = 14 \/ d mod 16 = 15)
    by (pose proof (Z.mod_pos_bound d 16); lia).
  repeat (destruct Hd as [Hd|Hd]; [rewrite Hd; reflexivity|]).
  rewrite Hd; reflexivity.
Qed.

Lemma length_hex_of_bytes (bs : list byte) :
  String.length (hex_of_bytes bs) = (2 * length bs)%nat.
Proof.
  unfold hex_of_bytes.
  induction bs as [|b bs IH]; simpl; [reflexivity|].
  rewrite IH. lia.
Qed.

Lemma hex_of_bytes_lower (bs : list byte) :
  forallb is_lower_hex (list_ascii_of_string (hex_of_bytes bs)) = true.
Proof.
  unfold hex_of_bytes. rewrite list_ascii_of_string_of_list_ascii.
  induction bs as [|b bs IH]; simpl; [reflexivity|].
  rewrite !hex_digit_lower, IH. reflexivity.
Qed.

Lemma sha256_output_length (s : SHA256.state) :
  length (SHA256.output s) = 32%nat.
Proof. unfold SHA256.output. rewrite !length_app, !length_be_bytes. reflexivity. Qed.

Lemma sha256_digest_length (h : Hash SHA256.state) :
  String.length (SHA256.digest_hex h) = 64%nat.
Proof.
  unfold SHA256.digest_hex.
  rewrite length_hex_of_bytes, sha256_output_length. reflexivity.
Qed.

(** What [calculateFileHash] resolves with depends on the bytes read, not
    on how the stream cut them into chunks. *)
Lemma calculateFileHash_content (stream : ReadStream) :
  failure stream = None ->
  Server.calculateFileHash stream = Resolved (SHA256.hex (content stream)).
Proof.
  intros Hend. unfold Server.calculateFileHash, SHA256.hex, content.
  rewrite Hend. unfold SHA256.createHash.
  rewrite (fold_update_fresh SHA256.compress). reflexivity.
Qed.

Lemma calculateFileHash_failure (stream : ReadStream) (message : string) :
  failure stream = Some message ->
  Server.calculateFileHash stream = Rejected message.
Proof. intros Hf. unfold Server.calculateFileHash. now rewrite Hf. Qed.

(** C8. The fingerprint is a function of the bytes alone: two reads that
    deliver the same bytes and end normally, however each is cut into chunks,
    resolve with one and the same digest, the SHA-256 of the content; that
    digest has exactly 64 characters, each a lowercase hexadecimal digit. *)
Theorem fingerprint_deterministic_hex64 (first second : ReadStream) :
  failure first = None ->
  failure second = None ->
  content first = content second ->
  exists digest : string,
    Server.calculateFileHash first = Resolved digest
    /\ Server.calculateFileHash second = Resolved digest
    /\ digest = SHA256.hex (content first)
    /\ String.length digest = 64%nat
    /\ forallb is_lower_hex (list_ascii_of_string digest) = true.
Proof.
  intros H1 H2 Hsame.
  exists (SHA256.hex (content first)).
  split; [|split; [|split; [|split]]].
  - now apply calculateFileHash_content.
  - rewrite Hsame. now apply calculateFileHash_content.
  - reflexivity.
  - apply sha256_digest_length.
  - apply hex_of_bytes_lower.
Qed.

Lemma fingerprint_deterministic_hex64_witness :
  exists digest : string,
    Server.calculateFileHash abc_whole = Resolved digest
    /\ Server.calculateFileHash abc_pieces = Resolved digest
    /\ digest = SHA256.hex (content abc_whole)
    /\ String.length digest = 64%nat
    /\ forallb is_lower_hex (list_ascii_of_string digest) = true.
Proof.
  apply (fingerprint_deterministic_hex64 abc_whole abc_pieces);
    reflexivity.
Defined.

(** The test vectors of FIPS 180-4 and the digest of the demo document. *)
Example sha256_abc :
  SHA256.hex (list_byte_of_string "abc")
  = "ba7816bf8f01cfea414140de5dae2223b00361a396177a9cb410ff61f20015ad".
Proof. vm_compute. reflexivity. Qed.

Example sha256_empty :
  SHA256.hex []
  = "e3b0c44298fc1c149afbf4c8996fb92427ae41e4649b934ca495991b7852b855".
Proof. vm_compute. reflexivity. Qed.

Example sha256_two_blocks :
  SHA256.hex (list_byte_of_string
    "abcdbcdecdefdefgefghfghighijhijkijkljklmklmnlmnomnopnopq")
  = "248d6a61d20638b8e5c026930c3e6039a33ce45964ff2167f6ecedd419db06c1".
Proof. vm_compute. reflexivity. Qed.

Example sha1_abc :
  SHA1.hex (list_byte_of_string "abc")
  = "a9993e364706816aba3e25717850c26c9cd0d89d".
Proof. vm_compute. reflexivity. Qed.

Example toISOString_leap_day :
  Date.toISOString 1709210096789 = "2024-02-29T12:34:56.789Z".
Proof. vm_compute. reflexivity. Qed.

(** ** The record table *)

Section JsMapFacts.

Context {V : Type}.
Implicit Types (m : JsMap.t V) (k : string) (v : V).

Lemma set_fresh k v m :
  ~ In k (JsMap.keys m) -> JsMap.set k v m = m ++ [(k, v)].
Proof.
  induction m as [|[k' v'] m IH]; simpl; intros Hk; [reflexivity|].
  destruct (String.eqb_spec k' k) as [->|Hne]; [tauto|].
  rewrite IH by tauto. reflexivity.
Qed.

Lemma set_values_fresh k v m :
  ~ In k (JsMap.keys m) ->
  JsMap.values (JsMap.set k v m) = JsMap.values m ++ [v].
Proof.
  intros Hk. rewrite set_fresh by assumption.
  unfold JsMap.values. rewrite map_app. reflexivity.
Qed.

Lemma set_keys_fresh k v m :
  ~ In k (JsMap.keys m) ->
  JsMap.keys (JsMap.set k v m) = JsMap.keys m ++ [k].
Proof.
  intros Hk. rewrite set_fresh by assumption.
  unfold JsMap.keys. rewrite map_app. reflexivity.
Qed.

(** A key already present keeps its place and the table its length. *)
Lemma set_keys_present k v m :
  In k (JsMap.keys m) -> JsMap.keys (JsMap.set k v m) = JsMap.keys m.
Proof.
  induction m as [|[k' v'] m IH]; simpl; intros Hk; [tauto|].
  destruct (String.eqb_spec k' k) as [->|Hne]; simpl; [reflexivity|].
  f_equal. apply IH. destruct Hk; [congruence|assumption].
Qed.

Lemma set_in k v m : In v (JsMap.values (JsMap.set k v m)).
Proof.
  induction m as [|[k' v'] m IH]; simpl; [now left|].
  destruct (String.eqb_spec k' k); simpl; [now left | now right].
Qed.

Lemma get_set k v m : JsMap.get k (JsMap.set k v m) = Some v.
Proof.
  induction m as [|[k' v'] m IH]; simpl.
  - now rewrite String.eqb_refl.
  - destruct (String.eqb_spec k' k) as [->|Hne]; simpl.
    + now rewrite String.eqb_refl.
    + destruct (String.eqb_spec k' k); [contradiction|assumption].
Qed.

(** Entries under other keys are left alone. *)
Lemma set_other k v m k0 v0 :
  k0 <> k -> In (k0, v0) m -> In (k0, v0) (JsMap.set k v m).
Proof.
  intros Hne. induction m as [|[k' v'] m IH]; simpl; [tauto|].
  intros [E|Hin].
  - inversion E; subst.
    destruct (String.eqb_spec k0 k); [contradiction | now left].
  - destruct (String.eqb_spec k' k); right; auto.
Qed.

End JsMapFacts.

Lemma find_first {A : Type} (p : A -> bool) (before after : list A) (x : A) :
  (forall y, In y before -> p y = false) ->
  p x = true ->
  find p (before ++ x :: after) = Some x.
Proof.
  intros Hbefore Hx. induction before as [|y before IH]; simpl.
  - now rewrite Hx.
  - rewrite (Hbefore y) by now left.
    apply IH. intros z Hz. apply Hbefore. now right.
Qed.

Lemma find_present {A : Type} (p : A -> bool) (l : list A) (x : A) :
  In x l -> p x = true -> exists y, find p l = Some y.
Proof.
  intros Hin Hp. destruct (find p l) as [y|] eqn:E; [now exists y|].
  pose proof (find_none p l E x Hin) as Hf. congruence.
Qed.

Lemma find_absent {A : Type} (p : A -> bool) (l : list A) :
  (forall x, In x l -> p x = false) -> find p l = None.
Proof.
  intros Hall. destruct (find p l) as [y|] eqn:E; [|reflexivity].
  destruct (find_some p l E) as [Hin Hp].
  rewrite (Hall y Hin) in Hp. discriminate.
Qed.

(** ** The handlers, case by case *)

Lemma upload_ok (f : Multer.File) (fs : Fs) (d : option string)
    (clock : Clock) (m : JsMap.t Server.FileRecord) :
  failure (createReadStream fs) = None ->
  Server.upload (Some f) fs d clock m
  = (Server.res_json
       (uploaded_body (Server.new_record f d clock (fingerprint fs))),
     JsMap.set (toString (now_id clock))
               (Server.new_record f d clock (fingerprint fs)) m).
Proof.
  intros Hend. unfold Server.upload.
  rewrite calculateFileHash_content by assumption. reflexivity.
Qed.


Lemma verify_ok (f : Multer.File) (fs : Fs) (m : JsMap.t Server.FileRecord) :
  failure (createReadStream fs) = None ->
  unlinkSync fs = None ->
  Server.verify (Some f) fs m
  = (match find (fun record =>
                   String.eqb (Server.fileHash record) (fingerprint fs))
                (JsMap.values m) with
     | Some matchingRecord =>
         Server.res_json
           (verified_body "File integrity verified successfully"
                          matchingRecord)
     | None =>
         Server.res_json (JObj [
           ("success", JBool true);
           ("isValid", JBool false);
           ("message", JStr "File not found or has been tampered with");
           ("calculatedHash", JStr (fingerprint fs)) ])
     end, m).
Proof.
  intros Hend Hunlink. unfold Server.verify.
  rewrite calculateFileHash_content by assumption. rewrite Hunlink.
  unfold Server.bind, Server.fileRecords_values, fingerprint.
  destruct (find _ (JsMap.values m)); reflexivity.
Qed.

Lemma verify_hash_string (h : string) (m : JsMap.t Server.FileRecord) :
  h <> "" ->
  Server.verify_hash (Some (JStr h)) m
  = (match find (fun record => String.eqb (Server.fileHash record) h)
                (JsMap.values m) with
     | Some matchingRecord =>
         Server.res_json
           (verified_body "File hash found in records" matchingRecord)
     | None =>
         Server.res_json (JObj [
           ("success", JBool true);
           ("isValid", JBool false);
           ("message", JStr "File hash not found in records") ])
     end, m).
Proof.
  intros Hne. unfold Server.verify_hash. simpl.
  destruct (String.eqb_spec h ""); [contradiction|]. simpl.
  unfold Server.bind, Server.fileRecords_values.
  destruct (find _ (JsMap.values m)); reflexivity.
Qed.

(** ** Sample requests, after the walk-through of [DEMO.md] *)

Example demo_fingerprint : fingerprint demo_fs = demo_digest.
Proof. vm_compute. reflexivity. Qed.

Example demo_fingerprint_again : fingerprint demo_fs_again = demo_digest.
Proof. vm_compute. reflexivity. Qed.

Example modified_fingerprint :
  fingerprint modified_fs
  = "05a8c442ff9ea5f8397c66590125d29fab1b28acb486077c422ceb0592f1b387".
Proof. vm_compute. reflexivity. Qed.

(** ** Verification *)

(** Round trip on the table an upload leaves: a verification of a file with
    the same bytes, served right after the upload, answers [isValid: true],
    and the [fileHash] of the record it returns is the [fileHash] the upload
    returned, the digest of the content. *)
Lemma round_trip_verification
    (m : JsMap.t Server.FileRecord)
    (f : Multer.File) (fs : Fs) (d : option string) (clock : Clock)
    (f' : Multer.File) (fs' : Fs) :
  failure (createReadStream fs) = None ->
  failure (createReadStream fs') = None ->
  unlinkSync fs' = None ->
  content (createReadStream fs') = content (createReadStream fs) ->
  let registered := Server.upload (Some f) fs d clock m in
  let verified := Server.verify (Some f') fs' (snd registered) in
  Server.status (fst registered) = 200
  /\ data_field "fileHash" (fst registered) = Some (JStr (fingerprint fs))
  /\ Server.status (fst verified) = 200
  /\ field "isValid" (Server.body (fst verified)) = Some (JBool true)
  /\ data_field "fileHash" (fst verified)
     = data_field "fileHash" (fst registered).
Proof.
  intros Hend Hend' Hunlink Hsame registered verified.
  subst registered verified.
  rewrite upload_ok by assumption. cbn [fst snd].
  rewrite verify_ok by assumption.
  assert (Hfp : fingerprint fs' = fingerprint fs)
    by (unfold fingerprint; now rewrite Hsame).
  rewrite Hfp.
  set (r := Server.new_record f d clock (fingerprint fs)).
  destruct (find_present
              (fun record => String.eqb (Server.fileHash record) (fingerprint fs))
              (JsMap.values (JsMap.set (toString (now_id clock)) r m)) r)
    as [y Hy].
  { apply set_in. }
  { apply String.eqb_refl. }
  rewrite Hy. cbn [fst].
  destruct (find_some _ _ Hy) as [_ Hhash].
  apply String.eqb_eq in Hhash.
  repeat split; try reflexivity.
  cbn. now rewrite Hhash.
Qed.

Lemma round_trip_verification_witness :
  let registered :=
    Server.upload (Some demo_file) demo_fs None demo_clock JsMap.empty in
  let verified :=
    Server.verify (Some demo_file) demo_fs_again (snd registered) in
  Server.status (fst registered) = 200
  /\ data_field "fileHash" (fst registered) = Some (JStr (fingerprint demo_fs))
  /\ Server.status (fst verified) = 200
  /\ field "isValid" (Server.body (fst verified)) = Some (JBool true)
  /\ data_field "fileHash" (fst verified)
     = data_field "fileHash" (fst registered).
Proof.
  apply (round_trip_verification JsMap.empty demo_file demo_fs None demo_clock
           demo_file demo_fs_again); reflexivity.
Defined.

(** C2 does not hold of the backend. The demo document is registered; a
    different file is then registered within the same millisecond, takes
    the same id and with it the place of the demo record in the table. A
    verification of the very bytes that were registered first is then
    answered with [isValid: false]. *)
Theorem registration_lost_in_same_millisecond :
  let registered :=
    Server.upload (Some demo_file) demo_fs None demo_clock JsMap.empty in
  let collided :=
    Server.upload (Some modified_file) modified_fs None same_ms_clock
                  (snd registered) in
  let verified :=
    Server.verify (Some demo_file) demo_fs_again (snd collided) in
  content (createReadStream demo_fs_again) = content (createReadStream demo_fs)
  /\ Server.status (fst registered) = 200
  /\ data_field "fileHash" (fst registered) = Some (JStr demo_digest)
  /\ Server.status (fst collided) = 200
  /\ Server.status (fst verified) = 200
  /\ field "isValid" (Server.body (fst verified)) = Some (JBool false)
  /\ field "calculatedHash" (Server.body (fst verified))
     = Some (JStr demo_digest).
Proof. vm_compute. repeat split; reflexivity. Qed.

(** C6. A verification whose digest matches no stored record is answered
    normally (status 200, [success: true]) with [isValid: false] and the
    digest of the submitted content under [calculatedHash]; the lookup miss
    is not an error. *)
Theorem negative_verification
    (m : JsMap.t Server.FileRecord) (f : Multer.File) (fs : Fs) :
  failure (createReadStream fs) = None ->
  unlinkSync fs = None ->
  (forall r, In r (JsMap.values m) -> Server.fileHash r <> fingerprint fs) ->
  fst (Server.verify (Some f) fs m)
  = Server.respond 200 (JObj [
      ("success", JBool true);
      ("isValid", JBool false);
      ("message", JStr "File not found or has been tampered with");
      ("calculatedHash", JStr (SHA256.hex (content (createReadStream fs)))) ]).
Proof.
  intros Hend Hunlink Hmiss.
  rewrite verify_ok by assumption.
  rewrite find_absent; [reflexivity|].
  intros r Hr. apply String.eqb_neq. now apply Hmiss.
Qed.

Lemma negative_verification_witness :
  fst (Server.verify (Some demo_file) modified_fs demo_table)
  = Server.respond 200 (JObj [
      ("success", JBool true);
      ("isValid", JBool false);
      ("message", JStr "File not found or has been tampered with");
      ("calculatedHash",
       JStr (SHA256.hex (content (createReadStream modified_fs)))) ]).
Proof.
  apply (negative_verification demo_table demo_file modified_fs).
  - reflexivity.
  - reflexivity.
  - intros r Hr. vm_compute in Hr. destruct Hr as [<-|[]].
    vm_compute. discriminate.
Defined.

(** C7. Verification by hash answers 400 exactly when the supplied string is
    empty. For a non-empty string [f] the table is searched for [f] itself:
    if some stored record has [fileHash] equal to [f], the answer is
    [isValid: true] with the data of such a record, its [originalName]
    included; if none has, the answer is [isValid: false] and the body has
    no [calculatedHash] property. *)
Theorem hash_only_lookup (m : JsMap.t Server.FileRecord) (f : string) :
  let answer := fst (Server.verify_hash (Some (JStr f)) m) in
  (Server.status answer = 400 <-> f = "")
  /\ (f <> "" ->
      (exists r, In r (JsMap.values m) /\ Server.fileHash r = f) ->
      exists r,
        In r (JsMap.values m) /\ Server.fileHash r = f
        /\ answer = Server.respond 200
                      (verified_body "File hash found in records" r)
        /\ field "isValid" (Server.body answer) = Some (JBool true)
        /\ data_field "originalName" answer
           = Some (JStr (Server.originalName r)))
  /\ (f <> "" ->
      (forall r, In r (JsMap.values m) -> Server.fileHash r <> f) ->
      answer = Server.respond 200 (JObj [
                 ("success", JBool true);
                 ("isValid", JBool false);
                 ("message", JStr "File hash not found in records") ])
      /\ field "calculatedHash" (Server.body answer) = None).
Proof.
  intros answer. subst answer. split; [|split].
  - split.
    + intros Hstatus. destruct (String.eqb_spec f "") as [E|Hne]; [exact E|].
      rewrite verify_hash_string in Hstatus by assumption.
      cbn [fst] in Hstatus.
      destruct (find _ (JsMap.values m)); discriminate Hstatus.
    + intros ->. reflexivity.
  - intros Hne [r [Hin Hhash]].
    rewrite verify_hash_string by assumption. cbn [fst].
    destruct (find_present
                (fun record => String.eqb (Server.fileHash record) f)
                (JsMap.values m) r Hin) as [y Hy].
    { rewrite Hhash. apply String.eqb_refl. }
    rewrite Hy. destruct (find_some _ _ Hy) as [Hyin Hyhash].
    apply String.eqb_eq in Hyhash.
    exists y. repeat split; assumption.
  - intros Hne Hmiss.
    rewrite verify_hash_string by assumption. cbn [fst].
    rewrite find_absent; [split; reflexivity|].
    intros r Hr. apply String.eqb_neq. now apply Hmiss.
Qed.

(** C9. Neither verification handler writes to the record table: whatever
    the request, the table after the call is the table before it. *)
Theorem verification_read_only
    (m : JsMap.t Server.FileRecord)
    (file : option Multer.File) (fs : Fs) (wanted : option json) :
  snd (Server.verify file fs m) = m
  /\ snd (Server.verify_hash wanted m) = m.
Proof.
  split.
  - unfold Server.verify.
    destruct file as [f|]; [|reflexivity].
    destruct (Server.calculateFileHash (createReadStream fs)) as [h|e];
      [|reflexivity].
    destruct (unlinkSync fs); [reflexivity|].
    unfold Server.bind, Server.fileRecords_values.
    destruct (find _ (JsMap.values m)); reflexivity.
  - unfold Server.verify_hash.
    destruct (negb (truthy wanted)); [reflexivity|].
    unfold Server.bind, Server.fileRecords_values.
    destruct (find _ (JsMap.values m)); reflexivity.
Qed.

(** C10. Among the stored records with a given [fileHash], both
    verification handlers return the one that comes first in the table's
    iteration order, however many others follow it. *)
Theorem earliest_match_returned
    (m : JsMap.t Server.FileRecord)
    (earlier later : list Server.FileRecord) (r : Server.FileRecord)
    (h : string) (f : Multer.File) (fs : Fs) :
  JsMap.values m = earlier ++ r :: later ->
  Server.fileHash r = h ->
  (forall x, In x earlier -> Server.fileHash x <> h) ->
  (failure (createReadStream fs) = None ->
   unlinkSync fs = None ->
   fingerprint fs = h ->
   fst (Server.verify (Some f) fs m)
   = Server.respond 200
       (verified_body "File integrity verified successfully" r))
  /\ (h <> "" ->
      fst (Server.verify_hash (Some (JStr h)) m)
      = Server.respond 200 (verified_body "File hash found in records" r)).
Proof.
  intros Hvalues Hr Hearlier.
  assert (Hfind : find (fun record => String.eqb (Server.fileHash record) h)
                       (JsMap.values m) = Some r).
  { rewrite Hvalues. apply find_first.
    - intros y Hy. apply String.eqb_neq. now apply Hearlier.
    - rewrite Hr. apply String.eqb_refl. }
  split.
  - intros Hend Hunlink Hfp.
    rewrite verify_ok by assumption. rewrite Hfp, Hfind. reflexivity.
  - intros Hne.
    rewrite verify_hash_string by assumption. rewrite Hfind. reflexivity.
Qed.

Lemma hash_only_lookup_witness :
  (exists r,
     In r (JsMap.values demo_table) /\ Server.fileHash r = demo_digest
     /\ fst (Server.verify_hash (Some (JStr demo_digest)) demo_table)
        = Server.respond 200 (verified_body "File hash found in records" r)
     /\ field "isValid"
          (Server.body
             (fst (Server.verify_hash (Some (JStr demo_digest)) demo_table)))
        = Some (JBool true)
     /\ data_field "originalName"
          (fst (Server.verify_hash (Some (JStr demo_digest)) demo_table))
        = Some (JStr (Server.originalName r)))
  /\ (fst (Server.verify_hash (Some (JStr "0123abcd")) demo_table)
      = Server.respond 200 (JObj [
          ("success", JBool true);
          ("isValid", JBool false);
          ("message", JStr "File hash not found in records") ])
      /\ field "calculatedHash"
           (Server.body
              (fst (Server.verify_hash (Some (JStr "0123abcd")) demo_table)))
         = None).
Proof.
  split.
  - apply (proj1 (proj2 (hash_only_lookup demo_table demo_digest))).
    + discriminate.
    + eexists. split; [left; reflexivity|]. vm_compute. reflexivity.
  - apply (proj2 (proj2 (hash_only_lookup demo_table "0123abcd"))).
    + discriminate.
    + intros r Hr. vm_compute in Hr. destruct Hr as [<-|[]].
      vm_compute. discriminate.
Defined.

Example twice_table_values :
  JsMap.values twice_table = [first_record; second_record].
Proof. vm_compute. reflexivity. Qed.

Lemma earliest_match_returned_witness :
  fst (Server.verify (Some demo_file) demo_fs twice_table)
  = Server.respond 200
      (verified_body "File integrity verified successfully" first_record)
  /\ fst (Server.verify_hash (Some (JStr demo_digest)) twice_table)
     = Server.respond 200
         (verified_body "File hash found in records" first_record).
Proof.
  destruct (earliest_match_returned twice_table [] [second_record]
              first_record demo_digest demo_file demo_fs) as [Hcontent Hhash].
  - vm_compute. reflexivity.
  - reflexivity.
  - intros x [].
  - split.
    + apply Hcontent; [reflexivity | reflexivity | vm_compute; reflexivity].
    + apply Hhash. discriminate.
Defined.

(** ** Registration *)

Lemma toString_inj (a b : Z) : toString a = toString b -> a = b.
Proof. unfold toString. apply pretty_Z_inj. Qed.

(** Two uploads get the same record id exactly when their [Date.now()]
    readings for the id coincide. *)
Lemma record_id_eq_iff
    (f f' : Multer.File) (d d' : option string) (clock clock' : Clock)
    (h h' : string) :
  Server.id (Server.new_record f d clock h)
  = Server.id (Server.new_record f' d' clock' h')
  <-> now_id clock = now_id clock'.
Proof.
  unfold Server.new_record. cbn [Server.id]. split.
  - apply toString_inj.
  - now intros ->.
Qed.

(** An upload that was read to the end is never refused, whatever the table
    already holds: the record it builds is in the table afterwards. *)
Lemma upload_always_stores
    (m : JsMap.t Server.FileRecord)
    (f : Multer.File) (fs : Fs) (d : option string) (clock : Clock) :
  failure (createReadStream fs) = None ->
  Server.status (fst (Server.upload (Some f) fs d clock m)) = 200
  /\ In (Server.new_record f d clock (fingerprint fs))
        (JsMap.values (snd (Server.upload (Some f) fs d clock m))).
Proof.
  intros Hend. rewrite upload_ok by assumption. cbn [fst snd].
  split; [reflexivity | apply set_in].
Qed.

(** Records stored under other ids survive an upload. *)
Lemma upload_keeps_other_ids
    (m : JsMap.t Server.FileRecord)
    (file : option Multer.File) (fs : Fs) (d : option string) (clock : Clock)
    (k0 : string) (r0 : Server.FileRecord) :
  k0 <> toString (now_id clock) ->
  In (k0, r0) m ->
  In (k0, r0) (snd (Server.upload file fs d clock m)).
Proof.
  intros Hne Hin. unfold Server.upload.
  destruct file as [f|]; [|exact Hin].
  destruct (Server.calculateFileHash (createReadStream fs)) as [h|e];
    [|exact Hin].
  cbn. now apply set_other.
Qed.

(** An upload whose file cannot be read to the end is answered with status
    500 and stores nothing. *)
Lemma upload_read_failure
    (m : JsMap.t Server.FileRecord)
    (f : Multer.File) (fs : Fs) (d : option string) (clock : Clock)
    (message : string) :
  failure (createReadStream fs) = Some message ->
  Server.upload (Some f) fs d clock m
  = (Server.failed "Failed to process file upload" message, m).
Proof.
  intros Hfail. unfold Server.upload.
  now rewrite (calculateFileHash_failure _ message Hfail).
Qed.

(** X28. An upload that takes an id already in the table adds no entry: it
    replaces the record stored under that id. *)
Lemma upload_same_id_replaces
    (m : JsMap.t Server.FileRecord)
    (f : Multer.File) (fs : Fs) (d : option string) (clock : Clock) :
  failure (createReadStream fs) = None ->
  In (toString (now_id clock)) (JsMap.keys m) ->
  JsMap.keys (snd (Server.upload (Some f) fs d clock m)) = JsMap.keys m
  /\ JsMap.get (toString (now_id clock))
               (snd (Server.upload (Some f) fs d clock m))
     = Some (Server.new_record f d clock (fingerprint fs)).
Proof.
  intros Hend Hin. rewrite upload_ok by assumption. cbn [snd].
  split; [now apply set_keys_present | apply get_set].
Qed.

(** C1 does not hold of the backend. The demo document is uploaded twice,
    a minute apart: the second upload is answered with [success: true] like
    the first, and the table then holds two records with the same
    [fileHash]. *)
Theorem duplicate_upload_accepted :
  let first :=
    Server.upload (Some demo_file) demo_fs (Some "Test file for demonstration")
                  demo_clock JsMap.empty in
  let second :=
    Server.upload (Some demo_file) demo_fs_again (Some "Second copy")
                  later_clock (snd first) in
  content (createReadStream demo_fs_again) = content (createReadStream demo_fs)
  /\ Server.status (fst first) = 200
  /\ Server.status (fst second) = 200
  /\ field "success" (Server.body (fst second)) = Some (JBool true)
  /\ map Server.fileHash (JsMap.values (snd second))
     = [demo_digest; demo_digest].
Proof. vm_compute. repeat split; reflexivity. Qed.

(** The contract, by contrast, keeps a fingerprint index and refuses a hash
    it has just stored. *)
Lemma uploadFile_rejects_duplicate
    (sender now : N) (name hash ipfs descr : string)
    (s s' : FileIntegrity.Storage) (fileId : N)
    (sender' now' : N) (name' ipfs' descr' : string) :
  FileIntegrity.uploadFile sender now name hash ipfs descr s
  = FileIntegrity.Returned fileId s' ->
  name' <> "" ->
  FileIntegrity.uploadFile sender' now' name' hash ipfs' descr' s'
  = FileIntegrity.Reverted "File with this hash already exists".
Proof.
  unfold FileIntegrity.uploadFile. intros Hfirst Hname.
  destruct (negb (0 <? String.length name)%nat); [discriminate|].
  destruct (negb (0 <? String.length hash)%nat) eqn:Hhash; [discriminate|].
  destruct (negb (FileIntegrity.hashToFileId_at s hash =? 0)%N);
    [discriminate|].
  destruct (FileIntegrity.currentFileId s =? FileIntegrity.uint256_max)%N;
    [discriminate|].
  inversion Hfirst; subst; clear Hfirst.
  destruct name' as [|c name']; [contradiction|]. cbn [String.length Nat.ltb Nat.leb negb].
  unfold FileIntegrity.hashToFileId_at at 1. cbn [FileIntegrity.hashToFileId].
  rewrite lookup_insert_eq. cbn [default]. unfold id.
  destruct (N.eqb_spec (FileIntegrity.currentFileId s + 1) 0) as [E|_];
    [lia | reflexivity].
Qed.

(** C3 does not hold of the backend. Two different files are uploaded
    within one millisecond: both uploads are answered with the same [id],
    and the second record takes the place of the first in the table. *)
Theorem same_millisecond_same_id :
  let first :=
    Server.upload (Some demo_file) demo_fs None demo_clock JsMap.empty in
  let second :=
    Server.upload (Some modified_file) modified_fs None same_ms_clock
                  (snd first) in
  now_id demo_clock = now_id same_ms_clock
  /\ data_field "id" (fst first) = Some (JStr "1752300000002")
  /\ data_field "id" (fst second) = Some (JStr "1752300000002")
  /\ map Server.originalName (JsMap.values (snd first)) = ["test.txt"]
  /\ map Server.originalName (JsMap.values (snd second)) = ["modified.txt"].
Proof. vm_compute. repeat split; reflexivity. Qed.

(** C4 (counterexample). A file named [empty.txt] with no content at all is
    uploaded: the upload is answered with status 200 and a record carrying
    the digest of the empty byte sequence is added to the empty table. *)
Lemma empty_content_registered :
  let answer :=
    Server.upload (Some empty_file) (reads []) None demo_clock JsMap.empty in
  content (createReadStream (reads [])) = []
  /\ Server.status (fst answer) = 200
  /\ field "success" (Server.body (fst answer)) = Some (JBool true)
  /\ map Server.fileHash (JsMap.values (snd answer))
     = ["e3b0c44298fc1c149afbf4c8996fb92427ae41e4649b934ca495991b7852b855"].
Proof. vm_compute. repeat split; reflexivity. Qed.

(** ** The audit trail *)

Lemma prefix_app (t s : string) :
  String.prefix t s = true <-> exists post, s = (t ++ post)%string.
Proof.
  revert s. induction t as [|c t IH]; intros s.
  - split; [intros _; now exists s | destruct s; reflexivity].
  - destruct s as [|c' s]; simpl.
    + split; [discriminate | intros [post E]; discriminate E].
    + destruct (ascii_dec c c') as [->|Hne].
      * rewrite IH. split; intros [post E]; exists post.
        -- now rewrite E.
        -- now inversion E.
      * split; [discriminate|]. intros [post E]. inversion E. congruence.
Qed.

Lemma includes_nil (t : string) :
  AuditTrail.includes EmptyString t = String.prefix t EmptyString.
Proof. unfold AuditTrail.includes. apply orb_false_r. Qed.

Lemma includes_cons (c : ascii) (s t : string) :
  AuditTrail.includes (String c s) t
  = String.prefix t (String c s) || AuditTrail.includes s t.
Proof. reflexivity. Qed.

(** [includes] decides the occurrence of [t] inside [s]. *)
Lemma includes_spec (s t : string) :
  AuditTrail.includes s t = true
  <-> exists pre post, s = (pre ++ t ++ post)%string.
Proof.
  split.
  - induction s as [|c s IH]; intros H.
    + rewrite includes_nil in H. apply prefix_app in H as [post E].
      now exists EmptyString, post.
    + rewrite includes_cons in H. apply orb_true_iff in H as [H|H].
      * apply prefix_app in H as [post E]. now exists EmptyString, post.
      * destruct (IH H) as [pre [post E]].
        exists (String c pre), post. simpl. now rewrite E.
  - intros [pre [post E]]. revert s E.
    induction pre as [|c pre IH]; intros s E.
    + assert (Hp : String.prefix t s = true)
        by (apply prefix_app; now exists post).
      destruct s.
      * now rewrite includes_nil.
      * rewrite includes_cons, Hp. reflexivity.
    + subst s.
      change (AuditTrail.includes (String c (pre ++ t ++ post)%string) t = true).
      rewrite includes_cons. apply orb_true_iff. right. now apply IH.
Qed.

Lemma serve_uploads (subs : list Submission) :
  forall m : JsMap.t Server.FileRecord,
    Forall (fun s => failure (createReadStream (sub_fs s)) = None) subs ->
    List.NoDup (map id_of subs) ->
    (forall s, In s subs -> ~ In (id_of s) (JsMap.keys m)) ->
    snd (Server.serve (map request_of subs) m)
    = m ++ map (fun s => (id_of s, record_of s)) subs.
Proof.
  induction subs as [|s subs IH]; intros m Hends Hnodup Hfresh.
  - simpl. now rewrite app_nil_r.
  - apply Forall_cons_iff in Hends as [Hend Hends].
    apply List.NoDup_cons_iff in Hnodup as [Hs Hnodup].
    cbn [map Server.serve]. unfold Server.bind at 1.
    cbn [request_of Server.handle].
    rewrite upload_ok by assumption.
    unfold Server.bind at 1.
    fold (id_of s). fold (record_of s).
    specialize (IH (JsMap.set (id_of s) (record_of s) m) Hends Hnodup).
    destruct (Server.serve (map request_of subs)
                (JsMap.set (id_of s) (record_of s) m)) as [answers m'].
    cbn [snd Server.ret] in *.
    rewrite IH.
    + rewrite set_fresh by (apply Hfresh; now left).
      now rewrite <- app_assoc.
    + intros s' Hs'. rewrite set_keys_fresh by (apply Hfresh; now left).
      rewrite in_app_iff. intros [Hin|[E|[]]].
      * exact (Hfresh s' (or_intror Hs') Hin).
      * apply Hs. rewrite E. now apply in_map.
Qed.

Lemma NoDup_map_toString (l : list Z) :
  List.NoDup l -> List.NoDup (map toString l).
Proof.
  induction 1 as [|x l Hx Hl IH]; cbn [map]; constructor; [|exact IH].
  rewrite in_map_iff. intros [y [E Hy]].
  apply toString_inj in E. now subst y.
Qed.

Lemma files_ok (m : JsMap.t Server.FileRecord) :
  Server.files m
  = (Server.respond 200 (JObj [
       ("success", JBool true);
       ("count", JNum (Z.of_nat (length (JsMap.values m))));
       ("data", JArr (map Server.summary (JsMap.values m))) ]), m).
Proof.
  unfold Server.files, Server.bind, Server.fileRecords_values, Server.ret,
    Server.res_json.
  now rewrite length_map.
Qed.

(** The element the component decodes is the object the server sent. *)
Lemma to_json_of_record (r : Server.FileRecord) :
  AuditTrail.to_json (AuditTrail.of_record r) = Server.summary r.
Proof. reflexivity. Qed.

Lemma listRecords_blank (term : string) (m : JsMap.t Server.FileRecord) :
  AuditTrail.trim term = "" ->
  AuditTrail.listRecords term m
  = map AuditTrail.of_record (JsMap.values m).
Proof.
  intros Hblank. unfold AuditTrail.listRecords, AuditTrail.filteredFiles.
  now rewrite Hblank.
Qed.

Lemma listRecords_filter (term : string) (m : JsMap.t Server.FileRecord) :
  AuditTrail.trim term <> "" ->
  AuditTrail.listRecords term m
  = List.filter (AuditTrail.matches term)
                (map AuditTrail.of_record (JsMap.values m)).
Proof.
  intros Hterm. unfold AuditTrail.listRecords, AuditTrail.filteredFiles.
  destruct (String.eqb_spec (AuditTrail.trim term) ""); [contradiction|].
  reflexivity.
Qed.

(** C5 (counterexample). With a single space as the filter string, the
    record of [test.txt] is listed although no space occurs in its name, its
    (empty) description or its hash. *)
Lemma blank_filter_lists_everything :
  let rows := AuditTrail.listRecords " " plain_table in
  map AuditTrail.originalName rows = ["test.txt"]
  /\ map AuditTrail.description rows = [""]
  /\ map AuditTrail.fileHash rows = [demo_digest]
  /\ forallb (AuditTrail.matches " ") rows = false.
Proof. vm_compute. repeat split; reflexivity. Qed.

(** C5 (amended). After [n] uploads that were read to the end and took
    pairwise distinct clock readings for their ids, starting from the empty
    table, [GET /api/files] answers with [count = n] and the [n] summaries in
    upload order, oldest first, and the unfiltered audit trail shows the
    same rows. A filter string that is blank (empty once trimmed) leaves
    the list whole. Any other filter string keeps, in order, exactly the
    rows in which the lowercased filter occurs as a substring of the
    lowercased [originalName], [description] or [fileHash]. *)
Theorem audit_trail_listing :
  (forall subs : list Submission,
      Forall (fun s => failure (createReadStream (sub_fs s)) = None) subs ->
      List.NoDup (map (fun s => now_id (sub_clock s)) subs) ->
      let m := snd (Server.serve (map request_of subs) JsMap.empty) in
      fst (Server.files m)
      = Server.respond 200 (JObj [
          ("success", JBool true);
          ("count", JNum (Z.of_nat (length subs)));
          ("data", JArr (map (fun s => Server.summary (record_of s)) subs)) ])
      /\ AuditTrail.listRecords "" m
         = map (fun s => AuditTrail.of_record (record_of s)) subs)
  /\ (forall (m : JsMap.t Server.FileRecord) (term : string),
         AuditTrail.trim term = "" ->
         AuditTrail.listRecords term m
         = map AuditTrail.of_record (JsMap.values m))
  /\ (forall (m : JsMap.t Server.FileRecord) (term : string),
         AuditTrail.trim term <> "" ->
         AuditTrail.listRecords term m
         = List.filter (AuditTrail.matches term)
                       (map AuditTrail.of_record (JsMap.values m)))
  /\ (forall (term : string) (file : AuditTrail.FileRecord),
         AuditTrail.matches term file = true
         <-> (exists pre post,
                 AuditTrail.toLowerCase (AuditTrail.originalName file)
                 = (pre ++ AuditTrail.toLowerCase term ++ post)%string)
             \/ (exists pre post,
                    AuditTrail.toLowerCase (AuditTrail.description file)
                    = (pre ++ AuditTrail.toLowerCase term ++ post)%string)
             \/ (exists pre post,
                    AuditTrail.toLowerCase (AuditTrail.fileHash file)
                    = (pre ++ AuditTrail.toLowerCase term ++ post)%string)).
Proof.
  split; [|split; [|split]].
  - intros subs Hends Hclocks m.
    assert (Hvalues : JsMap.values m = map record_of subs).
    { subst m. rewrite serve_uploads.
      - unfold JsMap.values, JsMap.empty. cbn [app].
        rewrite map_map. reflexivity.
      - assumption.
      - unfold id_of. rewrite <- (map_map (fun s => now_id (sub_clock s)) toString).
        now apply NoDup_map_toString.
      - intros s _ []. }
    split.
    + rewrite files_ok. cbn [fst]. rewrite Hvalues.
      now rewrite length_map, map_map.
    + rewrite listRecords_blank by reflexivity.
      now rewrite Hvalues, map_map.
  - intros m term. apply listRecords_blank.
  - intros m term. apply listRecords_filter.
  - intros term file. unfold AuditTrail.matches.
    rewrite !orb_true_iff, !includes_spec. tauto.
Qed.

Lemma audit_trail_listing_witness :
  (let m := snd (Server.serve
                   (map request_of [demo_submission; modified_submission])
                   JsMap.empty) in
   fst (Server.files m)
   = Server.respond 200 (JObj [
       ("success", JBool true);
       ("count", JNum 2);
       ("data", JArr [Server.summary (record_of demo_submission);
                      Server.summary (record_of modified_submission)]) ])
   /\ AuditTrail.listRecords "" m
      = [AuditTrail.of_record (record_of demo_submission);
         AuditTrail.of_record (record_of modified_submission)])
  /\ AuditTrail.listRecords "  " demo_table
     = map AuditTrail.of_record (JsMap.values demo_table)
  /\ AuditTrail.listRecords "DEMONSTRATION" demo_table
     = List.filter (AuditTrail.matches "DEMONSTRATION")
                   (map AuditTrail.of_record (JsMap.values demo_table)).
Proof.
  split; [|split].
  - apply (proj1 audit_trail_listing [demo_submission; modified_submission]).
    + repeat constructor.
    + repeat constructor; cbn; intros H; repeat destruct H as [H|H];
        try discriminate H; exact H.
  - apply (proj1 (proj2 audit_trail_listing)). reflexivity.
  - apply (proj1 (proj2 (proj2 audit_trail_listing))). discriminate.
Defined.

Example filter_is_case_insensitive :
  map AuditTrail.originalName (AuditTrail.listRecords "DEMONSTRATION" demo_table)
  = ["test.txt"]
  /\ AuditTrail.listRecords "contract" demo_table = [].
Proof. vm_compute. split; reflexivity. Qed.

(** ** The round trip over time *)

Lemma set_in_entry {V : Type} (k : string) (v : V) (m : JsMap.t V) :
  In (k, v) (JsMap.set k v m).
Proof.
  induction m as [|[k' v'] m IH]; simpl; [now left|].
  destruct (String.eqb_spec k' k); [now left | now right].
Qed.

(** Requests other than uploads leave the table as it is. *)
Lemma handle_query
    (req : Server.Request) (m : JsMap.t Server.FileRecord) :
  (forall file fs d clock, req <> Server.PostUpload file fs d clock) ->
  snd (Server.handle req m) = m.
Proof.
  intros Hquery. destruct req as [file fs d clock|file fs|wanted|];
    cbn [Server.handle].
  - now destruct (Hquery file fs d clock).
  - unfold Server.verify.
    destruct file; [|reflexivity].
    destruct (Server.calculateFileHash _); [|reflexivity].
    destruct (unlinkSync fs); [reflexivity|].
    unfold Server.bind, Server.fileRecords_values.
    now destruct (find _ _).
  - unfold Server.verify_hash.
    destruct (negb _); [reflexivity|].
    unfold Server.bind, Server.fileRecords_values.
    now destruct (find _ _).
  - now rewrite files_ok.
Qed.

Lemma handle_keeps_other_ids
    (req : Server.Request) (m : JsMap.t Server.FileRecord)
    (k0 : string) (r0 : Server.FileRecord) :
  reuses_id k0 req = false ->
  In (k0, r0) m ->
  In (k0, r0) (snd (Server.handle req m)).
Proof.
  intros Hreq Hin.
  destruct req as [file fs d clock| | |];
    [|rewrite handle_query by discriminate; exact Hin ..].
  cbn [Server.handle]. apply upload_keeps_other_ids; [|exact Hin].
  cbn in Hreq. apply String.eqb_neq in Hreq. congruence.
Qed.

Lemma serve_keeps_other_ids (rs : list Server.Request) :
  forall (m : JsMap.t Server.FileRecord) (k0 : string)
         (r0 : Server.FileRecord),
    existsb (reuses_id k0) rs = false ->
    In (k0, r0) m ->
    In (k0, r0) (snd (Server.serve rs m)).
Proof.
  induction rs as [|req rs IH]; intros m k0 r0 Hnone Hin; [exact Hin|].
  cbn [existsb] in Hnone. apply orb_false_iff in Hnone as [Hreq Hrest].
  cbn [Server.serve]. unfold Server.bind at 1.
  pose proof (handle_keeps_other_ids req m k0 r0 Hreq Hin) as Hstep.
  destruct (Server.handle req m) as [a m1]. cbn [snd] in Hstep.
  unfold Server.bind at 1.
  specialize (IH m1 k0 r0 Hrest Hstep).
  destruct (Server.serve rs m1) as [others m2]. exact IH.
Qed.

(** X29. The round trip holds for as long as no later upload takes the id
    of the registration: whatever requests are served in between, the
    registered content still verifies, with the digest returned at
    registration. *)
Lemma round_trip_persists
    (m : JsMap.t Server.FileRecord)
    (f : Multer.File) (fs : Fs) (d : option string) (clock : Clock)
    (between : list Server.Request)
    (f' : Multer.File) (fs' : Fs) :
  failure (createReadStream fs) = None ->
  existsb (reuses_id (toString (now_id clock))) between = false ->
  failure (createReadStream fs') = None ->
  unlinkSync fs' = None ->
  content (createReadStream fs') = content (createReadStream fs) ->
  let registered := Server.upload (Some f) fs d clock m in
  let later := snd (Server.serve between (snd registered)) in
  let verified := fst (Server.verify (Some f') fs' later) in
  field "isValid" (Server.body verified) = Some (JBool true)
  /\ data_field "fileHash" verified = data_field "fileHash" (fst registered).
Proof.
  intros Hend Hbetween Hend' Hunlink Hsame registered later verified.
  subst registered later verified.
  rewrite upload_ok by assumption. cbn [fst snd].
  set (r := Server.new_record f d clock (fingerprint fs)).
  set (k := toString (now_id clock)) in *.
  pose proof (serve_keeps_other_ids between (JsMap.set k r m) k r Hbetween
                (set_in_entry k r m)) as Hkept.
  set (later := snd (Server.serve between (JsMap.set k r m))) in *.
  rewrite verify_ok by assumption.
  assert (Hfp : fingerprint fs' = fingerprint fs)
    by (unfold fingerprint; now rewrite Hsame).
  rewrite Hfp.
  destruct (find_present
              (fun record => String.eqb (Server.fileHash record) (fingerprint fs))
              (JsMap.values later) r) as [y Hy].
  { unfold JsMap.values. apply (in_map snd) in Hkept. exact Hkept. }
  { apply String.eqb_refl. }
  rewrite Hy. destruct (find_some _ _ Hy) as [_ Hhash].
  apply String.eqb_eq in Hhash.
  split; [reflexivity|]. cbn. now rewrite Hhash.
Qed.

(** The scenario of [DEMO.md]: upload the test document, verify it, verify
    a modified copy, then look the recorded digest up. *)
Example demo_scenario :
  let answers :=
    fst (Server.serve
           [ Server.PostUpload (Some demo_file) demo_fs None demo_clock;
             Server.PostVerify (Some demo_file) demo_fs_again;
             Server.PostVerify (Some modified_file) modified_fs;
             Server.PostVerifyHash (Some (JStr demo_digest)) ]
           JsMap.empty) in
  map (fun a => field "isValid" (Server.body a)) answers
  = [None; Some (JBool true); Some (JBool false); Some (JBool true)]
  /\ map (data_field "fileHash") answers
     = [Some (JStr demo_digest); Some (JStr demo_digest); None;
        Some (JStr demo_digest)].
Proof. vm_compute. split; reflexivity. Qed.

(** * Beyond the ledger core *)

(** ** Lookup by id *)

Lemma get_None_iff {V : Type} (k : string) (m : JsMap.t V) :
  JsMap.get k m = None <-> ~ In k (JsMap.keys m).
Proof.
  induction m as [|[k' v'] m IH]; simpl; [tauto|].
  destruct (String.eqb_spec k' k) as [->|Hne].
  - split; [discriminate | tauto].
  - rewrite IH. tauto.
Qed.

Lemma getFile_cases (id_param : string) (m : JsMap.t Server.FileRecord) :
  Server.getFile id_param m
  = (match JsMap.get id_param m with
     | None =>
         Server.respond 404 (JObj [ ("error", JStr "File not found") ])
     | Some record =>
         Server.respond 200 (JObj [
           ("success", JBool true);
           ("data", Server.summary record) ])
     end, m).
Proof.
  unfold Server.getFile, Server.bind, Server.fileRecords_get.
  now destruct (JsMap.get id_param m).
Qed.

(** X1. What an upload answers can be fetched back: right after an upload
    that was read to the end, [GET /api/files/:id] with the id the upload
    returned answers 200 with the very [data] object of the upload's
    answer. *)
Theorem get_after_upload
    (m : JsMap.t Server.FileRecord)
    (f : Multer.File) (fs : Fs) (d : option string) (clock : Clock) :
  failure (createReadStream fs) = None ->
  let registered := Server.upload (Some f) fs d clock m in
  let fetched :=
    fst (Server.getFile (toString (now_id clock)) (snd registered)) in
  data_field "id" (fst registered) = Some (JStr (toString (now_id clock)))
  /\ Server.status fetched = 200
  /\ field "success" (Server.body fetched) = Some (JBool true)
  /\ field "data" (Server.body fetched)
     = field "data" (Server.body (fst registered)).
Proof.
  intros Hend registered fetched. subst registered fetched.
  rewrite upload_ok by assumption. cbn [fst snd].
  rewrite getFile_cases, get_set. cbn [fst].
  repeat split.
Qed.

Lemma get_after_upload_witness :
  let registered :=
    Server.upload (Some demo_file) demo_fs None demo_clock twice_table in
  let fetched :=
    fst (Server.getFile (toString (now_id demo_clock)) (snd registered)) in
  data_field "id" (fst registered)
  = Some (JStr (toString (now_id demo_clock)))
  /\ Server.status fetched = 200
  /\ field "success" (Server.body fetched) = Some (JBool true)
  /\ field "data" (Server.body fetched)
     = field "data" (Server.body (fst registered)).
Proof.
  apply (get_after_upload twice_table demo_file demo_fs None demo_clock).
  reflexivity.
Defined.

(** X2. [GET /api/files/:id] answers 404 exactly for the ids that are not in
    the table and 200 for those that are, and never changes the table. *)
Theorem getFile_found_iff
    (m : JsMap.t Server.FileRecord) (id_param : string) :
  (Server.status (fst (Server.getFile id_param m)) = 404
   <-> ~ In id_param (JsMap.keys m))
  /\ (Server.status (fst (Server.getFile id_param m)) = 200
      <-> In id_param (JsMap.keys m))
  /\ snd (Server.getFile id_param m) = m.
Proof.
  rewrite getFile_cases. cbn [fst snd].
  pose proof (get_None_iff id_param m) as Hnone.
  destruct (JsMap.get id_param m) as [r|]; cbn [Server.status].
  - assert (Hin : In id_param (JsMap.keys m)).
    { destruct (in_dec string_dec id_param (JsMap.keys m)) as [H|H];
        [exact H|]. apply Hnone in H. discriminate H. }
    repeat split; try tauto; try discriminate.
  - assert (Hout : ~ In id_param (JsMap.keys m)) by now apply Hnone.
    repeat split; try tauto; try discriminate.
Qed.

(** ** What every route keeps *)

(** An upload either leaves the table alone or sets the record it built
    under the record's id. *)
Lemma upload_cases
    (file : option Multer.File) (fs : Fs) (d : option string) (clock : Clock)
    (m : JsMap.t Server.FileRecord) :
  snd (Server.upload file fs d clock m) = m
  \/ exists f,
       file = Some f /\ failure (createReadStream fs) = None
       /\ snd (Server.upload file fs d clock m)
          = JsMap.set (toString (now_id clock))
                      (Server.new_record f d clock (fingerprint fs)) m.
Proof.
  destruct file as [f|]; [|now left].
  destruct (failure (createReadStream fs)) as [message|] eqn:Hend.
  - left. now rewrite (upload_read_failure m f fs d clock message Hend).
  - right. exists f. rewrite upload_ok by assumption. auto.
Qed.

(** Every route but the upload leaves the table as it is. *)
Lemma route_query (e : Server.Endpoint) (m : JsMap.t Server.FileRecord) :
  (forall file fs d clock,
      e <> Server.Ledger (Server.PostUpload file fs d clock)) ->
  snd (Server.route e m) = m.
Proof.
  intros Hquery.
  destruct e as [r|id_param|file fs|now|]; cbn [Server.route].
  - apply handle_query. intros file fs d clock ->.
    now apply (Hquery file fs d clock).
  - now rewrite getFile_cases.
  - unfold Server.calculate_hash.
    destruct file; [|reflexivity].
    destruct (Server.calculateFileHash _); [|reflexivity].
    now destruct (unlinkSync fs).
  - reflexivity.
  - reflexivity.
Qed.

Lemma route_cases (e : Server.Endpoint) (m : JsMap.t Server.FileRecord) :
  snd (Server.route e m) = m
  \/ exists f fs d clock,
       failure (createReadStream fs) = None
       /\ snd (Server.route e m)
          = JsMap.set (toString (now_id clock))
                      (Server.new_record f d clock (fingerprint fs)) m.
Proof.
  destruct e as [[file fs d clock| | |]| | | |];
    try (left; apply route_query; discriminate).
  cbn [Server.route Server.handle].
  destruct (upload_cases file fs d clock m) as [H|[f [_ [Hend H]]]];
    [now left | right; now exists f, fs, d, clock].
Qed.

Lemma serve_all_cons (e : Server.Endpoint) (es : list Server.Endpoint)
    (m : JsMap.t Server.FileRecord) :
  snd (Server.serve_all (e :: es) m)
  = snd (Server.serve_all es (snd (Server.route e m))).
Proof.
  cbn [Server.serve_all]. unfold Server.bind.
  destruct (Server.route e m) as [a m1]. cbn [snd].
  destruct (Server.serve_all es m1) as [others m2]. reflexivity.
Qed.

(** A property of tables that every route keeps holds after any sequence of
    requests. *)
Lemma serve_all_keeps (P : JsMap.t Server.FileRecord -> Prop) :
  (forall e m, P m -> P (snd (Server.route e m))) ->
  forall es m, P m -> P (snd (Server.serve_all es m)).
Proof.
  intros Hstep es. induction es as [|e es IH]; intros m Hm; [exact Hm|].
  rewrite serve_all_cons. apply IH, Hstep, Hm.
Qed.

Lemma set_keys (k : string) {V : Type} (v : V) (m : JsMap.t V) :
  JsMap.keys (JsMap.set k v m)
  = if in_dec string_dec k (JsMap.keys m) then JsMap.keys m
    else JsMap.keys m ++ [k].
Proof.
  destruct (in_dec string_dec k (JsMap.keys m)) as [Hin|Hout].
  - now apply set_keys_present.
  - now apply set_keys_fresh.
Qed.

Lemma set_entries {V : Type} (P : string * V -> Prop)
    (k : string) (v : V) (m : JsMap.t V) :
  P (k, v) -> Forall P m -> Forall P (JsMap.set k v m).
Proof.
  intros Hnew Hall. induction Hall as [|[k' v'] m Hhead Htail IH]; simpl.
  - now constructor.
  - destruct (String.eqb_spec k' k); constructor; assumption.
Qed.

Lemma NoDup_snoc {A : Type} (l : list A) (x : A) :
  List.NoDup l -> ~ In x l -> List.NoDup (l ++ [x]).
Proof.
  induction 1 as [|y l Hy Hl IH]; intros Hx; cbn [app].
  - constructor; [intros [] | constructor].
  - constructor.
    + rewrite in_app_iff. intros [H|[->|[]]]; [contradiction|].
      apply Hx. now left.
    + apply IH. intros H. apply Hx. now right.
Qed.

Lemma set_well_keyed (r : Server.FileRecord) (m : JsMap.t Server.FileRecord) :
  well_keyed m -> well_keyed (JsMap.set (Server.id r) r m).
Proof.
  intros [Hentries Hnodup]. split.
  - now apply set_entries.
  - rewrite set_keys. destruct (in_dec _ _ _) as [Hin|Hout]; [exact Hnodup|].
    now apply NoDup_snoc.
Qed.

Lemma route_well_keyed (e : Server.Endpoint) (m : JsMap.t Server.FileRecord) :
  well_keyed m -> well_keyed (snd (Server.route e m)).
Proof.
  intros Hm.
  destruct (route_cases e m) as [->|[f [fs [d [clock [_ ->]]]]]];
    [exact Hm|].
  apply (set_well_keyed (Server.new_record f d clock (fingerprint fs)) m Hm).
Qed.

Lemma well_keyed_get (m : JsMap.t Server.FileRecord)
    (k : string) (r : Server.FileRecord) :
  well_keyed m -> JsMap.get k m = Some r -> Server.id r = k.
Proof.
  intros [Hentries _]. induction Hentries as [|[k' v'] m Hhead _ IH];
    simpl; [discriminate|].
  destruct (String.eqb_spec k' k) as [->|Hne]; [|exact IH].
  intros [= ->]. now symmetry.
Qed.

(** X3. Whatever requests the server has handled since it started, on any
    route, no id occurs twice in the table and the record kept under an id
    carries that id: [GET /api/files/:id] answers 404 or a record whose [id]
    is the one asked for. *)
Theorem ids_index_their_records
    (es : list Server.Endpoint) (id_param : string) :
  let m := snd (Server.serve_all es JsMap.empty) in
  List.NoDup (JsMap.keys m)
  /\ (Server.status (fst (Server.getFile id_param m)) = 404
      \/ data_field "id" (fst (Server.getFile id_param m))
         = Some (JStr id_param)).
Proof.
  intros m.
  assert (Hm : well_keyed m).
  { apply (serve_all_keeps well_keyed route_well_keyed).
    split; constructor. }
  split; [apply Hm|].
  rewrite getFile_cases. cbn [fst].
  destruct (JsMap.get id_param m) as [r|] eqn:Hget; [right | now left].
  cbn. now rewrite (well_keyed_get m id_param r Hm Hget).
Qed.

(** X4. The table only grows at its end: whatever the requests, the ids
    present before are still there afterwards, in the same order and in
    front of any new one, and there is at most one new id per request. *)
Theorem ids_are_never_removed
    (es : list Server.Endpoint) (m : JsMap.t Server.FileRecord) :
  exists added : list string,
    JsMap.keys (snd (Server.serve_all es m)) = JsMap.keys m ++ added
    /\ (length added <= length es)%nat.
Proof.
  revert m. induction es as [|e es IH]; intros m.
  - exists []. cbn. rewrite app_nil_r. split; [reflexivity | lia].
  - rewrite serve_all_cons.
    assert (Hstep : exists one,
               JsMap.keys (snd (Server.route e m)) = JsMap.keys m ++ one
               /\ (length one <= 1)%nat).
    { destruct (route_cases e m) as [->|[f [fs [d [clock [_ ->]]]]]].
      - exists []. rewrite app_nil_r. split; [reflexivity | cbn; lia].
      - rewrite set_keys. destruct (in_dec _ _ _).
        + exists []. rewrite app_nil_r. split; [reflexivity | cbn; lia].
        + eexists. split; [reflexivity | cbn; lia]. }
    destruct Hstep as [one [Hone Hlen1]].
    destruct (IH (snd (Server.route e m))) as [more [Hmore Hlen]].
    exists (one ++ more). rewrite Hmore, Hone, <- app_assoc.
    split; [reflexivity|]. rewrite length_app. cbn [length]. lia.
Qed.

Lemma fingerprint_is_digest (fs : Fs) : is_digest (fingerprint fs).
Proof.
  split; [apply sha256_digest_length | apply hex_of_bytes_lower].
Qed.

Lemma digest_not_empty (s : string) : is_digest s -> s <> "".
Proof. intros [Hlen _] ->. discriminate Hlen. Qed.

Lemma set_values {V : Type} (P : V -> Prop)
    (k : string) (v : V) (m : JsMap.t V) :
  P v -> Forall P (JsMap.values m) -> Forall P (JsMap.values (JsMap.set k v m)).
Proof.
  unfold JsMap.values. rewrite !Forall_map. intros Hv.
  now apply (set_entries (fun kv => P (snd kv))).
Qed.

Lemma route_keeps_digests (e : Server.Endpoint)
    (m : JsMap.t Server.FileRecord) :
  Forall (fun r => is_digest (Server.fileHash r)) (JsMap.values m) ->
  Forall (fun r => is_digest (Server.fileHash r))
         (JsMap.values (snd (Server.route e m))).
Proof.
  intros Hm.
  destruct (route_cases e m) as [->|[f [fs [d [clock [_ ->]]]]]];
    [exact Hm|].
  apply set_values; [|exact Hm]. apply fingerprint_is_digest.
Qed.

Lemma stored_hashes_are_digests_aux (es : list Server.Endpoint) :
  Forall (fun r => is_digest (Server.fileHash r))
         (JsMap.values (snd (Server.serve_all es JsMap.empty))).
Proof.
  apply (serve_all_keeps
           (fun m => Forall (fun r => is_digest (Server.fileHash r))
                            (JsMap.values m))
           route_keeps_digests).
  constructor.
Qed.

(** X5. Whatever requests the server has handled since it started, every
    record in the table and listed by [GET /api/files] carries as [fileHash]
    a string of exactly 64 lowercase hexadecimal digits. *)
Theorem stored_hashes_are_digests (es : list Server.Endpoint) :
  let m := snd (Server.serve_all es JsMap.empty) in
  Forall (fun r => is_digest (Server.fileHash r)) (JsMap.values m)
  /\ Forall (fun row => is_digest (AuditTrail.fileHash row))
            (AuditTrail.listRecords "" m).
Proof.
  intros m. pose proof (stored_hashes_are_digests_aux es) as Hall.
  fold m in Hall. split; [exact Hall|].
  rewrite listRecords_blank by reflexivity.
  rewrite Forall_map. exact Hall.
Qed.

(** X6. Lookup by hash is exact: on any table the server can hold, a string
    that is not 64 lowercase hexadecimal digits (a digest in capitals, or
    with a [0x] in front) is never answered with [isValid: true]. *)
Theorem lookup_needs_a_digest (es : list Server.Endpoint) (f : string) :
  ~ is_digest f ->
  field "isValid"
    (Server.body
       (fst (Server.verify_hash (Some (JStr f))
               (snd (Server.serve_all es JsMap.empty)))))
  <> Some (JBool true).
Proof.
  intros Hf. set (m := snd (Server.serve_all es JsMap.empty)).
  destruct (String.eqb_spec f "") as [->|Hne]; [discriminate|].
  rewrite verify_hash_string by assumption. cbn [fst].
  destruct (find _ (JsMap.values m)) as [r|] eqn:Hfind; [|discriminate].
  destruct (find_some _ _ Hfind) as [Hin Hhash].
  apply String.eqb_eq in Hhash. exfalso. apply Hf. rewrite <- Hhash.
  pose proof (stored_hashes_are_digests_aux es) as Hall.
  rewrite List.Forall_forall in Hall. now apply Hall.
Qed.

Lemma lookup_needs_a_digest_witness :
  field "isValid"
    (Server.body
       (fst (Server.verify_hash (Some (JStr shouted_digest))
               (snd (Server.serve_all busy_day JsMap.empty)))))
  <> Some (JBool true).
Proof.
  apply (lookup_needs_a_digest busy_day shouted_digest).
  intros [_ Hhex]. vm_compute in Hhex. discriminate Hhex.
Defined.

(** ** Verification, by content and by hash *)

(** X7. Verifying a file and looking its digest up are one and the same
    query: on every table, for a file read to the end, [POST /api/verify]
    and [POST /api/verify-hash] with the file's SHA-256 digest agree on
    [isValid] and return the same [data]. *)
Theorem verify_is_lookup_of_digest
    (m : JsMap.t Server.FileRecord) (f : Multer.File) (fs : Fs) :
  failure (createReadStream fs) = None ->
  unlinkSync fs = None ->
  let by_content := fst (Server.verify (Some f) fs m) in
  let by_hash :=
    fst (Server.verify_hash (Some (JStr (fingerprint fs))) m) in
  Server.status by_content = Server.status by_hash
  /\ field "isValid" (Server.body by_content)
     = field "isValid" (Server.body by_hash)
  /\ field "data" (Server.body by_content)
     = field "data" (Server.body by_hash).
Proof.
  intros Hend Hunlink by_content by_hash. subst by_content by_hash.
  rewrite verify_ok by assumption.
  rewrite verify_hash_string
    by (apply digest_not_empty, fingerprint_is_digest).
  cbn [fst]. destruct (find _ (JsMap.values m)); repeat split.
Qed.

Lemma verify_is_lookup_of_digest_witness :
  let by_content := fst (Server.verify (Some demo_file) demo_fs busy_table) in
  let by_hash :=
    fst (Server.verify_hash (Some (JStr (fingerprint demo_fs))) busy_table) in
  Server.status by_content = Server.status by_hash
  /\ field "isValid" (Server.body by_content)
     = field "isValid" (Server.body by_hash)
  /\ field "data" (Server.body by_content)
     = field "data" (Server.body by_hash).
Proof.
  apply (verify_is_lookup_of_digest busy_table demo_file demo_fs);
    reflexivity.
Defined.

(** X8. Tamper detection is exact: for a file read to the end,
    [POST /api/verify] answers [isValid: true] if and only if some record
    in the table carries the SHA-256 digest of exactly the bytes
    submitted. *)
Theorem verify_valid_iff_registered
    (m : JsMap.t Server.FileRecord) (f : Multer.File) (fs : Fs) :
  failure (createReadStream fs) = None ->
  unlinkSync fs = None ->
  field "isValid" (Server.body (fst (Server.verify (Some f) fs m)))
  = Some (JBool true)
  <-> exists r,
        In r (JsMap.values m)
        /\ Server.fileHash r = SHA256.hex (content (createReadStream fs)).
Proof.
  intros Hend Hunlink. rewrite verify_ok by assumption. cbn [fst].
  fold (fingerprint fs).
  destruct (find _ (JsMap.values m)) as [r|] eqn:Hfind.
  - split; [intros _ | reflexivity].
    destruct (find_some _ _ Hfind) as [Hin Hhash].
    apply String.eqb_eq in Hhash. now exists r.
  - split; [discriminate|]. intros [r [Hin Hhash]].
    pose proof (find_none _ _ Hfind r Hin) as Hno. cbn beta in Hno.
    rewrite Hhash, String.eqb_refl in Hno. discriminate Hno.
Qed.

Lemma verify_valid_iff_registered_witness :
  field "isValid"
    (Server.body (fst (Server.verify (Some modified_file) modified_fs
                                     busy_table)))
  = Some (JBool true)
  <-> exists r,
        In r (JsMap.values busy_table)
        /\ Server.fileHash r
           = SHA256.hex (content (createReadStream modified_fs)).
Proof.
  apply (verify_valid_iff_registered busy_table modified_file modified_fs);
    reflexivity.
Defined.

(** X9. A [fileHash] that is not a JSON string never verifies: whatever the
    table, [POST /api/verify-hash] answers such a payload (a number, a
    boolean, [null], an array, an object, or none at all) with status 400
    or with [isValid: false]. *)
Theorem verify_hash_wants_a_string
    (m : JsMap.t Server.FileRecord) (wanted : option json) :
  (forall s, wanted <> Some (JStr s)) ->
  Server.status (fst (Server.verify_hash wanted m)) = 400
  \/ fst (Server.verify_hash wanted m)
     = Server.respond 200 (JObj [
         ("success", JBool true);
         ("isValid", JBool false);
         ("message", JStr "File hash not found in records") ]).
Proof.
  intros Hwanted. unfold Server.verify_hash.
  destruct (negb (truthy wanted)); [now left|]. right.
  unfold Server.bind, Server.fileRecords_values.
  rewrite find_absent; [reflexivity|].
  intros r _. destruct wanted as [[| | |s| |]|]; try reflexivity.
  now destruct (Hwanted s).
Qed.

Lemma verify_hash_wants_a_string_witness :
  Server.status (fst (Server.verify_hash (Some (JNum 42)) busy_table)) = 400
  \/ fst (Server.verify_hash (Some (JNum 42)) busy_table)
     = Server.respond 200 (JObj [
         ("success", JBool true);
         ("isValid", JBool false);
         ("message", JStr "File hash not found in records") ]).
Proof.
  apply (verify_hash_wants_a_string busy_table (Some (JNum 42))).
  discriminate.
Defined.

(** ** The outcome of an upload *)


(** X11. [POST /api/calculate-hash] previews an upload without recording
    anything: for a file read to the end it answers 200 with the [fileHash]
    an upload of the same file would return, and the table is left as it
    was. *)
Theorem calculate_hash_previews_upload
    (m m' : JsMap.t Server.FileRecord)
    (f : Multer.File) (fs : Fs) (d : option string) (clock : Clock) :
  failure (createReadStream fs) = None ->
  unlinkSync fs = None ->
  let preview := Server.calculate_hash (Some f) fs m in
  snd preview = m
  /\ Server.status (fst preview) = 200
  /\ field "fileHash" (Server.body (fst preview))
     = data_field "fileHash" (fst (Server.upload (Some f) fs d clock m')).
Proof.
  intros Hend Hunlink preview. subst preview.
  rewrite upload_ok by assumption.
  unfold Server.calculate_hash.
  rewrite calculateFileHash_content by assumption. rewrite Hunlink.
  repeat split.
Qed.

Lemma calculate_hash_previews_upload_witness :
  let preview := Server.calculate_hash (Some demo_file) demo_fs busy_table in
  snd preview = busy_table
  /\ Server.status (fst preview) = 200
  /\ field "fileHash" (Server.body (fst preview))
     = data_field "fileHash"
         (fst (Server.upload (Some demo_file) demo_fs None demo_clock
                             JsMap.empty)).
Proof.
  apply (calculate_hash_previews_upload busy_table JsMap.empty demo_file
           demo_fs None demo_clock); reflexivity.
Defined.

Lemma upload_same_id_replaces_witness :
  JsMap.keys (snd (Server.upload (Some modified_file) modified_fs None
                                 same_ms_clock demo_table))
  = JsMap.keys demo_table
  /\ JsMap.get (toString (now_id same_ms_clock))
               (snd (Server.upload (Some modified_file) modified_fs None
                                   same_ms_clock demo_table))
     = Some (Server.new_record modified_file None same_ms_clock
                               (fingerprint modified_fs)).
Proof.
  apply (upload_same_id_replaces demo_table modified_file modified_fs None
           same_ms_clock).
  - reflexivity.
  - left. reflexivity.
Defined.

Lemma round_trip_persists_witness :
  let registered :=
    Server.upload (Some demo_file) demo_fs None demo_clock JsMap.empty in
  let later :=
    snd (Server.serve
           [ Server.GetFiles;
             Server.PostUpload (Some modified_file) modified_fs None
                               later_clock;
             Server.PostVerify (Some modified_file) modified_fs ]
           (snd registered)) in
  let verified := fst (Server.verify (Some demo_file) demo_fs_again later) in
  field "isValid" (Server.body verified) = Some (JBool true)
  /\ data_field "fileHash" verified = data_field "fileHash" (fst registered).
Proof.
  apply (round_trip_persists JsMap.empty demo_file demo_fs None demo_clock
           [ Server.GetFiles;
             Server.PostUpload (Some modified_file) modified_fs None
                               later_clock;
             Server.PostVerify (Some modified_file) modified_fs ]
           demo_file demo_fs_again); reflexivity.
Defined.

(** ** Strings, seen as lists of characters *)

Lemma chars_inj (a b : string) :
  list_ascii_of_string a = list_ascii_of_string b -> a = b.
Proof.
  intros H. rewrite <- (string_of_list_ascii_of_string a),
    <- (string_of_list_ascii_of_string b). now rewrite H.
Qed.

Lemma chars_length (s : string) :
  String.length s = length (list_ascii_of_string s).
Proof. induction s as [|c s IH]; simpl; [reflexivity | now rewrite IH]. Qed.

Lemma chars_append (a b : string) :
  list_ascii_of_string (a ++ b)
  = list_ascii_of_string a ++ list_ascii_of_string b.
Proof.
  induction a as [|c a IH]; [reflexivity|].
  change (list_ascii_of_string (String c (a ++ b))
          = c :: (list_ascii_of_string a ++ list_ascii_of_string b)).
  simpl. now rewrite IH.
Qed.

Lemma length_append (a b : string) :
  String.length (a ++ b) = (String.length a + String.length b)%nat.
Proof. now rewrite !chars_length, chars_append, length_app. Qed.

Lemma chars_substring (s : string) :
  forall n m : nat,
    list_ascii_of_string (substring n m s)
    = take m (drop n (list_ascii_of_string s)).
Proof.
  induction s as [|c s IH]; intros n m.
  - destruct n, m; reflexivity.
  - destruct n as [|n].
    + destruct m as [|m]; [reflexivity|].
      simpl. now rewrite IH.
    + simpl. apply IH.
Qed.

Lemma chars_rev_app (s acc : string) :
  list_ascii_of_string (String.rev_app s acc)
  = List.rev (list_ascii_of_string s) ++ list_ascii_of_string acc.
Proof.
  revert acc. induction s as [|c s IH]; intros acc; simpl; [reflexivity|].
  rewrite IH. simpl. now rewrite <- app_assoc.
Qed.

Lemma chars_rev (s : string) :
  list_ascii_of_string (String.rev s) = List.rev (list_ascii_of_string s).
Proof. unfold String.rev. rewrite chars_rev_app. apply app_nil_r. Qed.

Lemma substring_whole (s : string) (n : nat) :
  (String.length s <= n)%nat -> substring 0 n s = s.
Proof.
  intros Hn. apply chars_inj. rewrite chars_substring. cbn [drop].
  apply take_ge. now rewrite <- chars_length.
Qed.

(** ** The mock IPFS address *)

Lemma sha1_digest_length (h : Hash SHA1.state) :
  String.length (SHA1.digest_hex h) = 40%nat.
Proof.
  unfold SHA1.digest_hex, SHA1.output.
  rewrite length_hex_of_bytes, !length_app, !length_be_bytes. reflexivity.
Qed.

(** X12. The mock IPFS address of an upload is always 42 characters long:
    [Qm] followed by the whole 40-digit lowercase hexadecimal SHA-1 of the
    file name joined with the clock reading; [substring(0, 44)] never cuts
    anything off. *)
Theorem simulateIPFSUpload_shape (filename : string) (now : Z) :
  let mockHash := SHA1.hex (utf8 (filename ++ toString now)) in
  Server.simulateIPFSUpload filename now = ("Qm" ++ mockHash)%string
  /\ String.length mockHash = 40%nat
  /\ forallb is_lower_hex (list_ascii_of_string mockHash) = true
  /\ String.length (Server.simulateIPFSUpload filename now) = 42%nat.
Proof.
  intros mockHash.
  assert (Hlen : String.length mockHash = 40%nat)
    by apply sha1_digest_length.
  assert (Hwhole : Server.simulateIPFSUpload filename now
                   = ("Qm" ++ mockHash)%string).
  { unfold Server.simulateIPFSUpload. fold mockHash.
    rewrite substring_whole by lia. reflexivity. }
  split; [exact Hwhole|]. split; [exact Hlen|].
  split; [apply hex_of_bytes_lower|].
  rewrite Hwhole, length_append, Hlen. reflexivity.
Qed.

(** ** Abbreviated hashes and addresses *)

Lemma chars_of_list (l : list ascii) :
  list_ascii_of_string (string_of_list_ascii l) = l.
Proof. apply list_ascii_of_string_of_list_ascii. Qed.

Lemma string_split (s : string) (n : nat) :
  s = (string_of_list_ascii (take n (list_ascii_of_string s))
       ++ string_of_list_ascii (drop n (list_ascii_of_string s)))%string.
Proof.
  apply chars_inj. rewrite chars_append, !chars_of_list.
  now rewrite take_drop.
Qed.

Lemma js_substring_head (s : string) (n : nat) :
  js_substring s 0 (Z.of_nat n)
  = string_of_list_ascii (take n (list_ascii_of_string s)).
Proof.
  apply chars_inj. unfold js_substring. cbv zeta.
  rewrite chars_substring, chars_of_list, chars_length.
  generalize (list_ascii_of_string s) as cs. intros cs.
  set (len := Z.of_nat (length cs)).
  replace (Z.to_nat (Z.min (Z.max 0 (Z.min 0 len))
                           (Z.max 0 (Z.min (Z.of_nat n) len))))
    with 0%nat by lia.
  rewrite drop_0. subst len.
  destruct (Nat.le_gt_cases n (length cs)) as [Hle|Hgt].
  - f_equal. lia.
  - rewrite !take_ge by lia. reflexivity.
Qed.

Lemma js_substring_tail (s : string) (k : nat) :
  js_substring_from s (Z.of_nat (String.length s) - Z.of_nat k)
  = string_of_list_ascii
      (drop (length (list_ascii_of_string s) - k) (list_ascii_of_string s)).
Proof.
  apply chars_inj. unfold js_substring_from, js_substring. cbv zeta.
  rewrite chars_substring, chars_of_list, chars_length.
  generalize (list_ascii_of_string s) as cs. intros cs.
  set (len := Z.of_nat (length cs)).
  replace (Z.to_nat (Z.min (Z.max 0 (Z.min (len - Z.of_nat k) len))
                           (Z.max 0 (Z.min len len))))
    with (length cs - k)%nat by lia.
  subst len. apply take_ge. rewrite length_drop. lia.
Qed.

(** The head, three dots and the tail: what [formatHash] and
    [formatAddress] both build. *)
Lemma abbreviation (s : string) (n k : nat) :
  let len := String.length s in
  let short :=
    (js_substring s 0 (Z.of_nat n) ++ "..."
       ++ js_substring_from s (Z.of_nat len - Z.of_nat k))%string in
  ((n <= len)%nat -> (k <= len)%nat ->
   exists head rest front tail : string,
     s = (head ++ rest)%string /\ s = (front ++ tail)%string
     /\ String.length head = n /\ String.length tail = k
     /\ short = (head ++ "..." ++ tail)%string)
  /\ ((len < n)%nat -> (len < k)%nat -> short = (s ++ "..." ++ s)%string).
Proof.
  intros len short. subst short len.
  rewrite js_substring_head, js_substring_tail, chars_length.
  set (cs := list_ascii_of_string s). split.
  - intros Hn Hk.
    exists (string_of_list_ascii (take n cs)),
           (string_of_list_ascii (drop n cs)),
           (string_of_list_ascii (take (length cs - k) cs)),
           (string_of_list_ascii (drop (length cs - k) cs)).
    split; [apply string_split|]. split; [apply string_split|].
    rewrite !chars_length, !chars_of_list, length_take, length_drop.
    repeat split; lia.
  - intros Hn Hk.
    rewrite take_ge by lia.
    replace (length cs - k)%nat with 0%nat by lia. rewrite drop_0.
    unfold cs. now rewrite string_of_list_ascii_of_string.
Qed.

(** X13. [formatHash] of a hash of at least eight characters is its first
    eight characters, three dots and its last eight characters, 19
    characters in all; a shorter hash is shown whole on both sides of the
    dots. *)
Theorem formatHash_shape (hash : string) :
  ((8 <= String.length hash)%nat ->
   exists head rest front tail : string,
     hash = (head ++ rest)%string /\ hash = (front ++ tail)%string
     /\ String.length head = 8%nat /\ String.length tail = 8%nat
     /\ AuditTrail.formatHash hash = (head ++ "..." ++ tail)%string
     /\ String.length (AuditTrail.formatHash hash) = 19%nat)
  /\ ((String.length hash < 8)%nat ->
      AuditTrail.formatHash hash = (hash ++ "..." ++ hash)%string).
Proof.
  destruct (abbreviation hash 8 8) as [Hlong Hshort]. split.
  - intros Hlen.
    destruct (Hlong Hlen Hlen)
      as (head & rest & front & tail & H1 & H2 & H3 & H4 & H5).
    exists head, rest, front, tail.
    unfold AuditTrail.formatHash.
    change (Z.of_nat 8) with 8 in H5. rewrite H5.
    repeat split; try assumption.
    rewrite !length_append, H3, H4. reflexivity.
  - intros Hlen. apply (Hshort Hlen Hlen).
Qed.

(** X14. [formatAddress] of an address of at least six characters is its
    first six characters, three dots and its last four characters, 13
    characters in all; an address of fewer than four characters is shown
    whole on both sides of the dots. *)
Theorem formatAddress_shape (address : string) :
  ((6 <= String.length address)%nat ->
   exists head rest front tail : string,
     address = (head ++ rest)%string /\ address = (front ++ tail)%string
     /\ String.length head = 6%nat /\ String.length tail = 4%nat
     /\ BlockchainConnection.formatAddress address
        = (head ++ "..." ++ tail)%string
     /\ String.length (BlockchainConnection.formatAddress address) = 13%nat)
  /\ ((String.length address < 4)%nat ->
      BlockchainConnection.formatAddress address
      = (address ++ "..." ++ address)%string).
Proof.
  destruct (abbreviation address 6 4) as [Hlong Hshort]. split.
  - intros Hlen.
    destruct (Hlong Hlen ltac:(lia))
      as (head & rest & front & tail & H1 & H2 & H3 & H4 & H5).
    exists head, rest, front, tail.
    unfold BlockchainConnection.formatAddress.
    change (Z.of_nat 6) with 6 in H5. change (Z.of_nat 4) with 4 in H5.
    rewrite H5. repeat split; try assumption.
    rewrite !length_append, H3, H4. reflexivity.
  - intros Hlen. apply (Hshort ltac:(lia) Hlen).
Qed.

(** ** Lowercasing and trimming *)

Lemma chars_toLowerCase (s : string) :
  list_ascii_of_string (AuditTrail.toLowerCase s)
  = map AuditTrail.lower_char (list_ascii_of_string s).
Proof. induction s as [|c s IH]; simpl; [reflexivity | now rewrite IH]. Qed.

(** Lowercasing neither makes nor removes white space. *)
Lemma white_lower_char (c : ascii) :
  AuditTrail.is_white_space (AuditTrail.lower_char c)
  = AuditTrail.is_white_space c.
Proof. destruct c as [[] [] [] [] [] [] [] []]; reflexivity. Qed.

Lemma blank_toLowerCase (s : string) :
  blank (AuditTrail.toLowerCase s) = blank s.
Proof.
  unfold blank. rewrite chars_toLowerCase.
  induction (list_ascii_of_string s) as [|c cs IH]; simpl; [reflexivity|].
  now rewrite white_lower_char, IH.
Qed.

Lemma trimStart_blank (s : string) :
  AuditTrail.trimStart s = "" <-> blank s = true.
Proof.
  unfold blank. induction s as [|c s IH]; simpl; [tauto|].
  destruct (AuditTrail.is_white_space c); simpl; [exact IH|].
  split; discriminate.
Qed.

Lemma trimStart_head (s : string) (c : ascii) (rest : string) :
  AuditTrail.trimStart s = String c rest ->
  AuditTrail.is_white_space c = false.
Proof.
  induction s as [|c' s IH]; simpl; [discriminate|].
  destruct (AuditTrail.is_white_space c') eqn:Hc; [exact IH|].
  intros [= -> _]. exact Hc.
Qed.

Lemma trimStart_fixed (s : string) :
  spaceless s = true -> AuditTrail.trimStart s = s.
Proof.
  destruct s as [|c s]; [reflexivity|]. unfold spaceless. simpl.
  now destruct (AuditTrail.is_white_space c).
Qed.

Lemma trimStart_skips (l x : string) :
  blank l = true -> AuditTrail.trimStart (l ++ x) = AuditTrail.trimStart x.
Proof.
  unfold blank. induction l as [|c l IH]; [reflexivity|].
  change (forallb AuditTrail.is_white_space
            (c :: list_ascii_of_string l) = true ->
          AuditTrail.trimStart (String c (l ++ x)) = AuditTrail.trimStart x).
  simpl. destruct (AuditTrail.is_white_space c); [exact IH | discriminate].
Qed.

Lemma forallb_rev {A : Type} (p : A -> bool) (l : list A) :
  forallb p (List.rev l) = forallb p l.
Proof.
  destruct (forallb p l) eqn:E.
  - apply forallb_forall. intros x Hx. apply in_rev in Hx.
    now apply (proj1 (forallb_forall p l) E).
  - destruct (forallb p (List.rev l)) eqn:E'; [|reflexivity].
    rewrite <- E. symmetry. apply forallb_forall. intros x Hx.
    apply (proj1 (forallb_forall p (List.rev l)) E'). now apply in_rev in Hx.
Qed.

Lemma rev_append (a b : string) :
  String.rev (a ++ b) = (String.rev b ++ String.rev a)%string.
Proof.
  apply chars_inj.
  now rewrite chars_rev, !chars_append, !chars_rev, rev_app_distr.
Qed.

Lemma rev_rev (s : string) : String.rev (String.rev s) = s.
Proof. apply chars_inj. now rewrite !chars_rev, rev_involutive. Qed.

Lemma rev_empty (s : string) : String.rev s = "" -> s = "".
Proof. intros H. rewrite <- (rev_rev s), H. reflexivity. Qed.

Lemma blank_rev (s : string) : blank (String.rev s) = blank s.
Proof. unfold blank. rewrite chars_rev. apply forallb_rev. Qed.

Lemma spaceless_rev (s : string) : spaceless (String.rev s) = spaceless s.
Proof. unfold spaceless. rewrite chars_rev. apply forallb_rev. Qed.

(** A string trims to nothing exactly when it is blank. *)
Lemma trim_blank (s : string) : AuditTrail.trim s = "" <-> blank s = true.
Proof.
  unfold AuditTrail.trim, AuditTrail.trimEnd. split.
  - intros H. apply rev_empty in H.
    apply trimStart_blank in H. rewrite blank_rev in H.
    apply trimStart_blank.
    destruct (AuditTrail.trimStart s) as [|c rest] eqn:E; [reflexivity|].
    pose proof (trimStart_head s c rest E) as Hc.
    unfold blank in H. simpl in H. rewrite Hc in H. discriminate H.
  - intros H. apply trimStart_blank in H. rewrite H. reflexivity.
Qed.

Lemma trimEnd_drops (s r : string) :
  spaceless s = true -> blank r = true -> AuditTrail.trimEnd (s ++ r) = s.
Proof.
  intros Hs Hr. unfold AuditTrail.trimEnd.
  rewrite rev_append, trimStart_skips by now rewrite blank_rev.
  rewrite trimStart_fixed by now rewrite spaceless_rev.
  apply rev_rev.
Qed.

Lemma blank_append (a b : string) : blank (a ++ b) = blank a && blank b.
Proof. unfold blank. now rewrite chars_append, forallb_app. Qed.

(** White space around a spaceless string is all that trimming removes. *)
Lemma trim_padded (l s r : string) :
  blank l = true -> spaceless s = true -> blank r = true ->
  AuditTrail.trim (l ++ s ++ r) = s.
Proof.
  intros Hl Hs Hr. destruct s as [|c s].
  - apply trim_blank. change (blank (l ++ r) = true).
    now rewrite blank_append, Hl, Hr.
  - unfold AuditTrail.trim. rewrite trimStart_skips by assumption.
    assert (Hhead : AuditTrail.trimStart (String c s ++ r)
                    = (String c s ++ r)%string).
    { unfold spaceless in Hs. simpl in Hs.
      change (AuditTrail.trimStart (String c (s ++ r))
              = String c (s ++ r)).
      simpl. now destruct (AuditTrail.is_white_space c). }
    rewrite Hhead. now apply trimEnd_drops.
Qed.

(** ** Searching the audit trail *)

Lemma includes_refl (s : string) : AuditTrail.includes s s = true.
Proof.
  apply includes_spec. exists EmptyString, EmptyString.
  apply chars_inj. rewrite !chars_append. cbn [list_ascii_of_string app].
  now rewrite app_nil_r.
Qed.

(** X15. Searching for the whole of a record's name, description or hash,
    in any letter case, always lists that record. *)
Theorem search_finds_whole_field
    (files : list AuditTrail.FileRecord) (file : AuditTrail.FileRecord)
    (searchTerm : string) :
  In file files ->
  AuditTrail.toLowerCase searchTerm
  = AuditTrail.toLowerCase (AuditTrail.originalName file)
  \/ AuditTrail.toLowerCase searchTerm
     = AuditTrail.toLowerCase (AuditTrail.description file)
  \/ AuditTrail.toLowerCase searchTerm
     = AuditTrail.toLowerCase (AuditTrail.fileHash file) ->
  In file (AuditTrail.filteredFiles files searchTerm).
Proof.
  intros Hin Hsame. unfold AuditTrail.filteredFiles.
  destruct (String.eqb (AuditTrail.trim searchTerm) ""); [exact Hin|].
  apply filter_In. split; [exact Hin|].
  unfold AuditTrail.matches. rewrite !orb_true_iff.
  destruct Hsame as [ -> | [ -> | -> ] ];
    [left; left | left; right | right]; apply includes_refl.
Qed.

Lemma search_finds_whole_field_witness :
  In (AuditTrail.of_record second_record)
     (AuditTrail.filteredFiles
        (map AuditTrail.of_record (JsMap.values twice_table)) "SECOND Copy").
Proof.
  apply (search_finds_whole_field
           (map AuditTrail.of_record (JsMap.values twice_table))
           (AuditTrail.of_record second_record) "SECOND Copy").
  - right. left. reflexivity.
  - right. left. reflexivity.
Defined.

(** X16. The case of the search term does not matter: two terms that are
    equal once lowercased filter any list of rows to the same result. *)
Theorem search_ignores_case
    (files : list AuditTrail.FileRecord) (term term' : string) :
  AuditTrail.toLowerCase term = AuditTrail.toLowerCase term' ->
  AuditTrail.filteredFiles files term = AuditTrail.filteredFiles files term'.
Proof.
  intros Hsame.
  assert (Hblank : blank term = blank term')
    by now rewrite <- (blank_toLowerCase term), Hsame, blank_toLowerCase.
  unfold AuditTrail.filteredFiles.
  destruct (String.eqb_spec (AuditTrail.trim term) "") as [E|E];
    destruct (String.eqb_spec (AuditTrail.trim term') "") as [E'|E'].
  - reflexivity.
  - exfalso. apply E'. apply trim_blank. rewrite <- Hblank.
    now apply trim_blank.
  - exfalso. apply E. apply trim_blank. rewrite Hblank.
    now apply trim_blank.
  - apply filter_ext. intros file. unfold AuditTrail.matches.
    now rewrite Hsame.
Qed.

Lemma search_ignores_case_witness :
  AuditTrail.filteredFiles
    (map AuditTrail.of_record (JsMap.values twice_table)) "Test.TXT"
  = AuditTrail.filteredFiles
      (map AuditTrail.of_record (JsMap.values twice_table)) "tEST.txt".
Proof.
  apply (search_ignores_case
           (map AuditTrail.of_record (JsMap.values twice_table))
           "Test.TXT" "tEST.txt").
  reflexivity.
Defined.

(** ** The verification form and the backend *)

Lemma hex_is_not_white (c : ascii) :
  is_lower_hex c = true -> AuditTrail.is_white_space c = false.
Proof.
  destruct c as [[] [] [] [] [] [] [] []]; intros H;
    first [reflexivity | discriminate H].
Qed.

Lemma digest_spaceless (s : string) : is_digest s -> spaceless s = true.
Proof.
  intros [_ Hhex]. unfold spaceless.
  apply forallb_forall. intros c Hc.
  rewrite (hex_is_not_white c); [reflexivity|].
  now apply (proj1 (forallb_forall _ _) Hhex).
Qed.

(** X17. The hash form never provokes the 400 of [POST /api/verify-hash]:
    a blank entry is refused in the browser and nothing is sent; any other
    entry is sent trimmed, and the backend answers it with status 200 and
    leaves the table as it was. *)
Theorem hash_form_is_never_rejected
    (hashInput : string) (m : JsMap.t Server.FileRecord) :
  match FileVerification.verifyByHash hashInput with
  | FileVerification.Refused error =>
      blank hashInput = true /\ error = "Please enter a file hash"
  | FileVerification.Sent request =>
      blank hashInput = false
      /\ request = Server.PostVerifyHash
                     (Some (JStr (AuditTrail.trim hashInput)))
      /\ Server.status (fst (Server.handle request m)) = 200
      /\ snd (Server.handle request m) = m
  end.
Proof.
  unfold FileVerification.verifyByHash.
  destruct (String.eqb_spec (AuditTrail.trim hashInput) "") as [E|E].
  - split; [now apply trim_blank | reflexivity].
  - split.
    { destruct (blank hashInput) eqn:Hb; [|reflexivity].
      destruct E. now apply trim_blank. }
    split; [reflexivity|]. cbn [Server.handle].
    rewrite verify_hash_string by assumption. cbn [fst snd].
    split; [|reflexivity].
    now destruct (find _ (JsMap.values m)).
Qed.

(** X18. White space pasted around a digest does no harm: whatever requests
    the server has handled, entering the [fileHash] of a stored record with
    blanks before and after it sends that very [fileHash], and the backend
    answers [isValid: true]. *)
Theorem padded_digest_is_found
    (es : list Server.Endpoint) (r : Server.FileRecord)
    (before after : string) :
  let m := snd (Server.serve_all es JsMap.empty) in
  In r (JsMap.values m) ->
  blank before = true ->
  blank after = true ->
  FileVerification.verifyByHash (before ++ Server.fileHash r ++ after)
  = FileVerification.Sent
      (Server.PostVerifyHash (Some (JStr (Server.fileHash r))))
  /\ field "isValid"
       (Server.body
          (fst (Server.verify_hash (Some (JStr (Server.fileHash r))) m)))
     = Some (JBool true).
Proof.
  intros m Hin Hbefore Hafter.
  assert (Hdigest : is_digest (Server.fileHash r)).
  { pose proof (stored_hashes_are_digests_aux es) as Hall.
    rewrite List.Forall_forall in Hall. now apply Hall. }
  pose proof (digest_not_empty _ Hdigest) as Hne.
  split.
  - unfold FileVerification.verifyByHash.
    rewrite trim_padded by (try assumption; now apply digest_spaceless).
    now destruct (String.eqb_spec (Server.fileHash r) "").
  - rewrite verify_hash_string by assumption. cbn [fst].
    destruct (find_present
                (fun record =>
                   String.eqb (Server.fileHash record) (Server.fileHash r))
                (JsMap.values m) r Hin (String.eqb_refl _)) as [y Hy].
    now rewrite Hy.
Qed.

Lemma padded_digest_is_found_witness :
  FileVerification.verifyByHash
    ("  " ++ Server.fileHash busy_demo_record ++ " ")
  = FileVerification.Sent
      (Server.PostVerifyHash (Some (JStr (Server.fileHash busy_demo_record))))
  /\ field "isValid"
       (Server.body
          (fst (Server.verify_hash
                  (Some (JStr (Server.fileHash busy_demo_record)))
                  (snd (Server.serve_all busy_day JsMap.empty)))))
     = Some (JBool true).
Proof.
  apply (padded_digest_is_found busy_day busy_demo_record "  " " ").
  - vm_compute. right. left. reflexivity.
  - reflexivity.
  - reflexivity.
Defined.

(** ** The contract *)

Lemma uploadFile_returns
    (sender now : N) (name hash ipfs descr : string)
    (s s' : FileIntegrity.Storage) (fileId : N) :
  FileIntegrity.uploadFile sender now name hash ipfs descr s
  = FileIntegrity.Returned fileId s' ->
  name <> "" /\ hash <> ""
  /\ FileIntegrity.hashToFileId_at s hash = 0%N
  /\ FileIntegrity.currentFileId s <> FileIntegrity.uint256_max
  /\ fileId = (FileIntegrity.currentFileId s + 1)%N
  /\ s' = FileIntegrity.mkStorage
            (<[fileId := FileIntegrity.mkRecord name hash ipfs sender now
                           descr true]> (FileIntegrity.files s))
            (<[hash := fileId]> (FileIntegrity.hashToFileId s))
            (<[sender := FileIntegrity.uploaderFiles_at s sender ++ [fileId]]>
               (FileIntegrity.uploaderFiles s))
            fileId
            (FileIntegrity.events s
               ++ [FileIntegrity.FileUploaded fileId name hash ipfs sender
                                              now]).
Proof.
  unfold FileIntegrity.uploadFile. intros H.
  destruct name as [|c name]; [discriminate H|].
  destruct hash as [|c' hash]; [discriminate H|].
  cbn [String.length Nat.ltb Nat.leb negb] in H.
  destruct (N.eqb_spec (FileIntegrity.hashToFileId_at s (String c' hash)) 0)
    as [Hfree|Htaken]; [|discriminate H].
  destruct (N.eqb_spec (FileIntegrity.currentFileId s)
                       FileIntegrity.uint256_max) as [Hmax|Hroom];
    [discriminate H|].
  cbn [negb] in H. inversion H; subst; clear H.
  repeat split; try discriminate; assumption.
Qed.

Lemma deployed_consistent : consistent FileIntegrity.deployed.
Proof.
  unfold consistent, FileIntegrity.deployed, FileIntegrity.uploaderFiles_at.
  cbn. split; [|split; [|split]].
  - intros h fileId H. rewrite lookup_empty in H. discriminate H.
  - intros fileId r H. rewrite lookup_empty in H. discriminate H.
  - intros fileId H. lia.
  - intros who fileId. rewrite lookup_empty. cbn. split; [intros []|].
    intros [r [H _]]. rewrite lookup_empty in H. discriminate H.
Qed.

Lemma consistent_free (s : FileIntegrity.Storage) (h : string) :
  consistent s ->
  FileIntegrity.hashToFileId_at s h = 0%N ->
  FileIntegrity.hashToFileId s !! h = None.
Proof.
  intros (Hindex & _) Hzero. unfold FileIntegrity.hashToFileId_at in Hzero.
  destruct (FileIntegrity.hashToFileId s !! h) as [fileId|] eqn:E;
    [|reflexivity].
  cbn in Hzero. subst fileId. now destruct (Hindex h 0%N E) as [Hnz _].
Qed.

Lemma upload_consistent
    (sender now : N) (name hash ipfs descr : string)
    (s s' : FileIntegrity.Storage) (fileId : N) :
  consistent s ->
  FileIntegrity.uploadFile sender now name hash ipfs descr s
  = FileIntegrity.Returned fileId s' ->
  consistent s'.
Proof.
  intros Hs Hup.
  destruct (uploadFile_returns _ _ _ _ _ _ _ _ _ Hup)
    as (_ & _ & Hzero & _ & Hid & ->).
  pose proof (consistent_free s hash Hs Hzero) as Hnone.
  destruct Hs as (Hindex & Hfiles & Hrange & Hlists).
  assert (Hfresh : FileIntegrity.files s !! fileId = None).
  { destruct (FileIntegrity.files s !! fileId) as [r|] eqn:E; [|reflexivity].
    destruct (Hfiles fileId r E) as [Hr _]. lia. }
  unfold consistent, FileIntegrity.uploaderFiles_at.
  cbn [FileIntegrity.files FileIntegrity.hashToFileId
       FileIntegrity.uploaderFiles FileIntegrity.currentFileId].
  split; [|split; [|split]].
  - intros h fid. destruct (decide (h = hash)) as [->|Hne].
    + rewrite lookup_insert_eq. intros [= <-]. split; [lia|].
      eexists. rewrite lookup_insert_eq. split; reflexivity.
    + rewrite lookup_insert_ne by congruence. intros Hold.
      destruct (Hindex h fid Hold) as [Hnz [r [Hr Hh]]].
      split; [exact Hnz|]. exists r. split; [|exact Hh].
      rewrite lookup_insert_ne; [exact Hr|]. intros <-. congruence.
  - intros fid r. destruct (decide (fid = fileId)) as [->|Hne].
    + rewrite lookup_insert_eq. intros [= <-].
      cbn [FileIntegrity.exists_ FileIntegrity.fileHash].
      split; [lia|]. split; [reflexivity|]. apply lookup_insert_eq.
    + rewrite lookup_insert_ne by congruence. intros Hold.
      destruct (Hfiles fid r Hold) as [Hr [Hex Hidx]].
      split; [lia|]. split; [exact Hex|].
      rewrite lookup_insert_ne; [exact Hidx|].
      intros Heq. rewrite <- Heq in Hidx. congruence.
  - intros fid Hfid. destruct (decide (fid = fileId)) as [->|Hne].
    + rewrite lookup_insert_eq. eauto.
    + rewrite lookup_insert_ne by congruence. apply Hrange. lia.
  - intros who fid. destruct (decide (who = sender)) as [->|Hwho].
    + rewrite lookup_insert_eq.
      change (In fid (FileIntegrity.uploaderFiles_at s sender ++ [fileId])
              <-> exists r,
                    <[fileId := FileIntegrity.mkRecord name hash ipfs sender
                                  now descr true]> (FileIntegrity.files s)
                    !! fid = Some r
                    /\ FileIntegrity.uploader r = sender).
      rewrite in_app_iff. split.
      * intros [Hold|[<-|[]]].
        -- apply Hlists in Hold as [r [Hr Hu]]. exists r. split; [|exact Hu].
           rewrite lookup_insert_ne; [exact Hr|]. intros <-. congruence.
        -- eexists. rewrite lookup_insert_eq. split; reflexivity.
      * intros [r [Hr Hu]]. destruct (decide (fid = fileId)) as [->|Hne].
        -- right. now left.
        -- rewrite lookup_insert_ne in Hr by congruence.
           left. apply Hlists. now exists r.
    + rewrite lookup_insert_ne by congruence.
      fold (FileIntegrity.uploaderFiles_at s who). rewrite Hlists. split.
      * intros [r [Hr Hu]]. exists r. split; [|exact Hu].
        rewrite lookup_insert_ne; [exact Hr|]. intros <-. congruence.
      * intros [r [Hr Hu]]. destruct (decide (fid = fileId)) as [->|Hne].
        -- rewrite lookup_insert_eq in Hr. injection Hr as <-.
           cbn in Hu. congruence.
        -- rewrite lookup_insert_ne in Hr by congruence. now exists r.
Qed.

Lemma transact_consistent (s : FileIntegrity.Storage) (tx : FileIntegrity.Tx) :
  consistent s -> consistent (FileIntegrity.transact s tx).
Proof.
  intros Hs. destruct tx as [sender now n h i d|sender h];
    cbn [FileIntegrity.transact].
  - destruct (FileIntegrity.uploadFile sender now n h i d s) as [|fid s']
      eqn:Hup; cbn [FileIntegrity.storage_after]; [exact Hs|].
    exact (upload_consistent _ _ _ _ _ _ _ _ _ Hs Hup).
  - exact Hs.
Qed.

Lemma history_consistent (txs : list FileIntegrity.Tx) :
  consistent (FileIntegrity.history txs).
Proof.
  unfold FileIntegrity.history.
  assert (Hgen : forall s, consistent s ->
                           consistent (fold_left FileIntegrity.transact txs s)).
  { induction txs as [|tx txs IH]; intros s Hs; [exact Hs|].
    cbn [fold_left]. apply IH. now apply transact_consistent. }
  apply Hgen, deployed_consistent.
Qed.

Lemma getFileById_lookup
    (s s' : FileIntegrity.Storage) (fileId : N) (r : FileIntegrity.FileRecord) :
  FileIntegrity.getFileById fileId s = FileIntegrity.Returned r s'
  <-> FileIntegrity.files s !! fileId = Some r
      /\ FileIntegrity.exists_ r = true /\ s' = s.
Proof.
  unfold FileIntegrity.getFileById, FileIntegrity.files_at.
  destruct (FileIntegrity.files s !! fileId) as [r0|]; cbn [default].
  - unfold id. destruct (FileIntegrity.exists_ r0) eqn:Hex; cbn [negb].
    + split.
      * intros [= <- <-]. auto.
      * intros ([= <-] & _ & ->). reflexivity.
    + split; [discriminate|]. intros ([= <-] & Hr & _). congruence.
  - unfold id. cbn. split; [discriminate|]. intros [H _]. discriminate H.
Qed.

(** X19. On the chain a hash identifies one record: after any sequence of
    transactions, the records [getFileById] returns under two different ids
    carry different [fileHash] values. *)
Theorem one_record_per_hash
    (txs : list FileIntegrity.Tx) (id1 id2 : N)
    (r1 r2 : FileIntegrity.FileRecord) (s1 s2 : FileIntegrity.Storage) :
  FileIntegrity.getFileById id1 (FileIntegrity.history txs)
  = FileIntegrity.Returned r1 s1 ->
  FileIntegrity.getFileById id2 (FileIntegrity.history txs)
  = FileIntegrity.Returned r2 s2 ->
  id1 <> id2 ->
  FileIntegrity.fileHash r1 <> FileIntegrity.fileHash r2.
Proof.
  intros H1 H2 Hids Hsame. apply Hids.
  apply getFileById_lookup in H1 as (H1 & _ & _).
  apply getFileById_lookup in H2 as (H2 & _ & _).
  destruct (history_consistent txs) as (_ & Hfiles & _).
  destruct (Hfiles id1 r1 H1) as (_ & _ & Hi1).
  destruct (Hfiles id2 r2 H2) as (_ & _ & Hi2).
  rewrite Hsame in Hi1. congruence.
Qed.

Lemma one_record_per_hash_witness :
  FileIntegrity.fileHash doc1 <> FileIntegrity.fileHash doc3.
Proof.
  apply (one_record_per_hash chain_log 1 3 doc1 doc3
           (FileIntegrity.history chain_log)
           (FileIntegrity.history chain_log)).
  - vm_compute. reflexivity.
  - vm_compute. reflexivity.
  - discriminate.
Defined.

(** X20. The ids of the contract are exactly 1 up to [getTotalFiles]: after
    any sequence of transactions, [getFileById] returns a record for each of
    them, and it and [getFileAuditTrail] revert with [File does not exist]
    for 0 and for every id beyond. *)
Theorem file_ids_are_one_to_total (txs : list FileIntegrity.Tx) (fileId : N) :
  let s := FileIntegrity.history txs in
  ((1 <= fileId <= FileIntegrity.getTotalFiles s)%N ->
   exists r, FileIntegrity.getFileById fileId s = FileIntegrity.Returned r s
             /\ FileIntegrity.getFileAuditTrail fileId s
                = FileIntegrity.Returned
                    (FileIntegrity.fileName r, FileIntegrity.fileHash r,
                     FileIntegrity.uploader r, FileIntegrity.timestamp r,
                     FileIntegrity.description r) s)
  /\ (~ (1 <= fileId <= FileIntegrity.getTotalFiles s)%N ->
      FileIntegrity.getFileById fileId s
      = FileIntegrity.Reverted "File does not exist"
      /\ FileIntegrity.getFileAuditTrail fileId s
         = FileIntegrity.Reverted "File does not exist").
Proof.
  intros s. destruct (history_consistent txs) as (_ & Hfiles & Hrange & _).
  fold s in Hfiles, Hrange.
  unfold FileIntegrity.getTotalFiles, FileIntegrity.getFileById,
    FileIntegrity.getFileAuditTrail, FileIntegrity.files_at.
  split.
  - intros Hin. destruct (Hrange fileId Hin) as [r Hr].
    destruct (Hfiles fileId r Hr) as (_ & Hex & _).
    exists r. rewrite Hr. cbn [default]. unfold id. rewrite Hex. auto.
  - intros Hout.
    destruct (FileIntegrity.files s !! fileId) as [r|] eqn:Hr.
    + destruct (Hfiles fileId r Hr) as (Hin & _). contradiction.
    + cbn. auto.
Qed.

(** X21. What is uploaded verifies: right after a successful [uploadFile],
    [verifyFile] of the same hash, by anyone, returns true with the new id,
    the uploader and the block time of the upload, and [getFileById] of the
    new id returns the record as it was submitted. *)
Theorem verifyFile_after_uploadFile
    (sender now : N) (name hash ipfs descr : string)
    (s s' : FileIntegrity.Storage) (fileId : N) (verifier : N) :
  FileIntegrity.uploadFile sender now name hash ipfs descr s
  = FileIntegrity.Returned fileId s' ->
  (exists s'',
      FileIntegrity.verifyFile verifier hash s'
      = FileIntegrity.Returned (true, fileId, sender, now) s'')
  /\ FileIntegrity.getFileById fileId s'
     = FileIntegrity.Returned
         (FileIntegrity.mkRecord name hash ipfs sender now descr true) s'
  /\ FileIntegrity.getTotalFiles s' = fileId.
Proof.
  intros Hup.
  destruct (uploadFile_returns _ _ _ _ _ _ _ _ _ Hup)
    as (_ & _ & _ & _ & Hid & Hs').
  assert (Hindex : FileIntegrity.hashToFileId_at s' hash = fileId).
  { rewrite Hs'. unfold FileIntegrity.hashToFileId_at.
    cbn [FileIntegrity.hashToFileId]. now rewrite lookup_insert_eq. }
  assert (Hrecord : FileIntegrity.files_at s' fileId
                    = FileIntegrity.mkRecord name hash ipfs sender now descr
                                             true).
  { rewrite Hs'. unfold FileIntegrity.files_at.
    cbn [FileIntegrity.files]. now rewrite lookup_insert_eq. }
  split; [|split].
  - eexists. unfold FileIntegrity.verifyFile. rewrite Hindex, Hrecord.
    destruct (N.eqb_spec fileId 0) as [E|_]; [lia|]. reflexivity.
  - unfold FileIntegrity.getFileById. rewrite Hrecord. reflexivity.
  - rewrite Hs'. reflexivity.
Qed.

Lemma verifyFile_after_uploadFile_witness :
  (exists s'',
      FileIntegrity.verifyFile 12 "0x3333"
        (FileIntegrity.history (take 5 chain_log))
      = FileIntegrity.Returned (true, 3%N, 12%N, 1003%N) s'')
  /\ FileIntegrity.getFileById 3 (FileIntegrity.history (take 5 chain_log))
     = FileIntegrity.Returned
         (FileIntegrity.mkRecord "doc3.pdf" "0x3333" "QmDoc3" 12 1003
                                 "Document 3" true)
         (FileIntegrity.history (take 5 chain_log))
  /\ FileIntegrity.getTotalFiles (FileIntegrity.history (take 5 chain_log))
     = 3%N.
Proof.
  apply (verifyFile_after_uploadFile 12 1003 "doc3.pdf" "0x3333" "QmDoc3"
           "Document 3"
           (FileIntegrity.history (take 4 chain_log))
           (FileIntegrity.history (take 5 chain_log)) 3 12).
  vm_compute. reflexivity.
Defined.

(** X22. [uploadFile] goes through exactly when the name and the hash are
    not empty, the hash is not registered yet and the counter is below the
    largest [uint256]; it then returns the counter plus one, which is the
    new total, and the hash is registered from then on. *)
Theorem uploadFile_succeeds_iff
    (sender now : N) (name hash ipfs descr : string)
    (s : FileIntegrity.Storage) :
  let clear :=
    name <> "" /\ hash <> ""
    /\ FileIntegrity.fileHashExists hash s = false
    /\ FileIntegrity.currentFileId s <> FileIntegrity.uint256_max in
  (clear ->
   exists s',
     FileIntegrity.uploadFile sender now name hash ipfs descr s
     = FileIntegrity.Returned (FileIntegrity.getTotalFiles s + 1)%N s'
     /\ FileIntegrity.getTotalFiles s'
        = (FileIntegrity.getTotalFiles s + 1)%N
     /\ FileIntegrity.fileHashExists hash s' = true)
  /\ (forall fileId s',
         FileIntegrity.uploadFile sender now name hash ipfs descr s
         = FileIntegrity.Returned fileId s' ->
         clear).
Proof.
  intros clear. subst clear. split.
  - intros (Hname & Hhash & Hfree & Hroom).
    unfold FileIntegrity.fileHashExists in Hfree.
    apply negb_false_iff in Hfree.
    eexists. unfold FileIntegrity.uploadFile.
    destruct name as [|c name]; [contradiction|].
    destruct hash as [|c' hash]; [contradiction|].
    cbn [String.length Nat.ltb Nat.leb negb].
    rewrite Hfree. cbn [negb].
    destruct (N.eqb_spec (FileIntegrity.currentFileId s)
                         FileIntegrity.uint256_max) as [E|_];
      [contradiction|].
    split; [reflexivity|]. split; [reflexivity|].
    unfold FileIntegrity.fileHashExists, FileIntegrity.hashToFileId_at.
    cbn [FileIntegrity.hashToFileId]. rewrite lookup_insert_eq.
    cbn [default]. unfold id.
    destruct (N.eqb_spec (FileIntegrity.currentFileId s + 1) 0) as [E|_];
      [lia | reflexivity].
  - intros fileId s' Hup.
    destruct (uploadFile_returns _ _ _ _ _ _ _ _ _ Hup)
      as (Hname & Hhash & Hzero & Hroom & _).
    repeat split; try assumption.
    unfold FileIntegrity.fileHashExists. now rewrite Hzero.
Qed.

Lemma uploadFile_rejects_duplicate_witness :
  FileIntegrity.uploadFile 12 1002 "copy.pdf" "0x1111" "QmDoc9" "Duplicate"
    (FileIntegrity.history (take 1 chain_log))
  = FileIntegrity.Reverted "File with this hash already exists".
Proof.
  apply (uploadFile_rejects_duplicate 11 1000 "doc1.pdf" "0x1111" "QmDoc1"
           "Document 1" FileIntegrity.deployed
           (FileIntegrity.history (take 1 chain_log)) 1
           12 1002 "copy.pdf" "QmDoc9" "Duplicate").
  - vm_compute. reflexivity.
  - discriminate.
Defined.

(** A hash the index knows stays known: [uploadFile] writes the index only
    under a hash that reads zero there, and [verifyFile] writes no
    mapping. *)
Lemma known_hash_stays_known (s : FileIntegrity.Storage)
    (tx : FileIntegrity.Tx) (h : string) :
  FileIntegrity.hashToFileId_at s h <> 0%N ->
  FileIntegrity.hashToFileId_at (FileIntegrity.transact s tx) h <> 0%N.
Proof.
  intros Hknown. destruct tx as [sender now n h' i d|sender h'];
    cbn [FileIntegrity.transact].
  - unfold FileIntegrity.uploadFile.
    destruct (negb (0 <? String.length n)%nat); [exact Hknown|].
    destruct (negb (0 <? String.length h')%nat); [exact Hknown|].
    destruct (negb (FileIntegrity.hashToFileId_at s h' =? 0)%N) eqn:Hfree;
      [exact Hknown|].
    destruct (FileIntegrity.currentFileId s =? FileIntegrity.uint256_max)%N;
      [exact Hknown|].
    cbn [FileIntegrity.storage_after].
    unfold FileIntegrity.hashToFileId_at. cbn [FileIntegrity.hashToFileId].
    destruct (decide (h' = h)) as [->|Hne].
    + apply negb_false_iff, N.eqb_eq in Hfree. contradiction.
    + rewrite lookup_insert_ne by exact Hne. exact Hknown.
  - exact Hknown.
Qed.

Lemma known_hash_stays_known_for_good (txs : list FileIntegrity.Tx)
    (s : FileIntegrity.Storage) (h : string) :
  FileIntegrity.hashToFileId_at s h <> 0%N ->
  FileIntegrity.hashToFileId_at (fold_left FileIntegrity.transact txs s) h
  <> 0%N.
Proof.
  revert s. induction txs as [|tx txs IH]; intros s Hknown; [exact Hknown|].
  cbn [fold_left]. apply IH. now apply known_hash_stays_known.
Qed.

(** X30. The contract refuses duplicates for good: once [uploadFile] has
    succeeded for a hash, whatever transactions follow, every later
    [uploadFile] with that hash and a non-empty name, by any sender,
    reverts with "File with this hash already exists". *)
Theorem uploadFile_refuses_known_hash_for_good
    (sender now : N) (name hash ipfs descr : string)
    (s s' : FileIntegrity.Storage) (fileId : N)
    (txs : list FileIntegrity.Tx)
    (sender' now' : N) (name' ipfs' descr' : string) :
  FileIntegrity.uploadFile sender now name hash ipfs descr s
  = FileIntegrity.Returned fileId s' ->
  name' <> "" ->
  FileIntegrity.uploadFile sender' now' name' hash ipfs' descr'
    (fold_left FileIntegrity.transact txs s')
  = FileIntegrity.Reverted "File with this hash already exists".
Proof.
  intros Hfirst Hname.
  assert (Hknown : FileIntegrity.hashToFileId_at s' hash <> 0%N
                   /\ hash <> "").
  { revert Hfirst. unfold FileIntegrity.uploadFile.
    destruct (negb (0 <? String.length name)%nat); [discriminate|].
    destruct hash as [|c hash]; [discriminate|].
    cbn [String.length Nat.ltb Nat.leb negb].
    destruct (negb (FileIntegrity.hashToFileId_at s (String c hash) =? 0)%N);
      [discriminate|].
    destruct (FileIntegrity.currentFileId s =? FileIntegrity.uint256_max)%N;
      [discriminate|].
    intros [= _ <-]. split; [|discriminate].
    unfold FileIntegrity.hashToFileId_at. cbn [FileIntegrity.hashToFileId].
    rewrite lookup_insert_eq. cbn [default]. unfold id. lia. }
  destruct Hknown as [Hknown Hhash].
  apply (known_hash_stays_known_for_good txs) in Hknown.
  unfold FileIntegrity.uploadFile.
  destruct name' as [|c name']; [contradiction|].
  destruct hash as [|c' hash]; [contradiction|].
  cbn [String.length Nat.ltb Nat.leb negb].
  destruct (N.eqb_spec
              (FileIntegrity.hashToFileId_at
                 (fold_left FileIntegrity.transact txs s') (String c' hash))
              0)
    as [E|_]; [contradiction | reflexivity].
Qed.

Lemma uploadFile_refuses_known_hash_for_good_witness :
  FileIntegrity.uploadFile 13 2000 "late.pdf" "0x1111" "QmLate" "Much later"
    (fold_left FileIntegrity.transact (drop 1 chain_log)
               (FileIntegrity.history (take 1 chain_log)))
  = FileIntegrity.Reverted "File with this hash already exists".
Proof.
  apply (uploadFile_refuses_known_hash_for_good
           11 1000 "doc1.pdf" "0x1111" "QmDoc1" "Document 1"
           FileIntegrity.deployed
           (FileIntegrity.history (take 1 chain_log)) 1
           (drop 1 chain_log)
           13 2000 "late.pdf" "QmLate" "Much later").
  - vm_compute. reflexivity.
  - discriminate.
Defined.

(** X23. [verifyFile] answers from the hash index, and the index is right:
    after any sequence of transactions it returns true exactly for the
    hashes of stored records, together with the id, the uploader and the
    block time of the record with that hash, and false with zeros for every
    other hash; it writes nothing but its event. *)
Theorem verifyFile_is_exact
    (txs : list FileIntegrity.Tx) (verifier : N) (hash : string) :
  let s := FileIntegrity.history txs in
  exists answer s',
    FileIntegrity.verifyFile verifier hash s
    = FileIntegrity.Returned answer s'
    /\ FileIntegrity.files s' = FileIntegrity.files s
    /\ FileIntegrity.hashToFileId s' = FileIntegrity.hashToFileId s
    /\ FileIntegrity.uploaderFiles s' = FileIntegrity.uploaderFiles s
    /\ FileIntegrity.currentFileId s' = FileIntegrity.currentFileId s
    /\ ((exists fileId r,
            FileIntegrity.getFileById fileId s = FileIntegrity.Returned r s
            /\ FileIntegrity.fileHash r = hash
            /\ answer = (true, fileId, FileIntegrity.uploader r,
                         FileIntegrity.timestamp r))
        \/ ((forall fileId r,
                FileIntegrity.getFileById fileId s
                = FileIntegrity.Returned r s ->
                FileIntegrity.fileHash r <> hash)
            /\ answer = (false, 0%N, 0%N, 0%N))).
Proof.
  intros s. destruct (history_consistent txs) as (Hindex & Hfiles & _).
  fold s in Hindex, Hfiles.
  eexists. eexists. split; [reflexivity|].
  cbn [FileIntegrity.files FileIntegrity.hashToFileId
       FileIntegrity.uploaderFiles FileIntegrity.currentFileId].
  repeat (split; [reflexivity|]).
  unfold FileIntegrity.hashToFileId_at.
  destruct (FileIntegrity.hashToFileId s !! hash) as [fileId|] eqn:E.
  - left. destruct (Hindex hash fileId E) as (Hnz & r & Hr & Hhash).
    destruct (Hfiles fileId r Hr) as (_ & Hex & _).
    exists fileId, r. split; [|split; [exact Hhash|]].
    + apply getFileById_lookup. auto.
    + cbn [default]. unfold id. unfold FileIntegrity.files_at. rewrite Hr.
      cbn [default]. unfold id.
      destruct (N.eqb_spec fileId 0) as [E0|_]; [contradiction|].
      reflexivity.
  - right. split; [|reflexivity].
    intros fileId r Hget Hhash.
    apply getFileById_lookup in Hget as (Hr & _ & _).
    destruct (Hfiles fileId r Hr) as (_ & _ & Hidx).
    rewrite Hhash in Hidx. congruence.
Qed.

(** X24. The list of an uploader is right: after any sequence of
    transactions, [getFilesByUploader] of an address holds an id exactly
    when [getFileById] returns under that id a record uploaded by that
    address. *)
Theorem uploader_list_is_exact
    (txs : list FileIntegrity.Tx) (who fileId : N) :
  let s := FileIntegrity.history txs in
  In fileId (FileIntegrity.getFilesByUploader who s)
  <-> exists r,
        FileIntegrity.getFileById fileId s = FileIntegrity.Returned r s
        /\ FileIntegrity.uploader r = who.
Proof.
  intros s. destruct (history_consistent txs) as (_ & Hfiles & _ & Hlists).
  fold s in Hfiles, Hlists.
  unfold FileIntegrity.getFilesByUploader. rewrite Hlists. split.
  - intros [r [Hr Hu]]. exists r. split; [|exact Hu].
    apply getFileById_lookup. destruct (Hfiles fileId r Hr) as (_ & Hex & _).
    auto.
  - intros [r [Hget Hu]]. exists r. split; [|exact Hu].
    now apply getFileById_lookup in Hget as (Hr & _ & _).
Qed.

(** ** Stored file names *)

Lemma pretty_N_go_no_dash (x : N) :
  forall s : string,
    ~ In "-"%char (list_ascii_of_string s) ->
    ~ In "-"%char (list_ascii_of_string (pretty_N_go x s)).
Proof.
  induction (N.lt_wf_0 x) as [x _ IH]. intros s Hs.
  destruct (N.eq_dec x 0%N) as [->|Hx]; [now rewrite pretty_N_go_0|].
  rewrite pretty_N_go_step by lia.
  apply IH; [apply N.div_lt; lia|].
  cbn [list_ascii_of_string]. intros [Hc|Hin]; [|contradiction].
  revert Hc. unfold pretty_N_char. repeat case_match; discriminate.
Qed.

Lemma toString_no_dash (t : Z) :
  0 <= t -> ~ In "-"%char (list_ascii_of_string (toString t)).
Proof.
  intros Ht. unfold toString, pretty, pretty_Z.
  destruct t as [|p|p]; [| |lia].
  - cbn. intros [H|[]]. discriminate H.
  - unfold pretty, pretty_positive, pretty, pretty_N.
    destruct (decide (N.pos p = 0%N)) as [E|_]; [discriminate E|].
    apply pretty_N_go_no_dash. intros [].
Qed.

Lemma split_at_first {A : Type} (x : A) (l1 l2 r1 r2 : list A) :
  ~ In x l1 -> ~ In x l2 ->
  l1 ++ x :: r1 = l2 ++ x :: r2 -> l1 = l2 /\ r1 = r2.
Proof.
  revert l2. induction l1 as [|a l1 IH]; intros l2 H1 H2 E.
  - destruct l2 as [|b l2]; cbn in E.
    + now inversion E.
    + inversion E; subst. destruct H2. now left.
  - destruct l2 as [|b l2]; cbn in E.
    + inversion E; subst. destruct H1. now left.
    + inversion E; subst.
      destruct (IH l2) as [-> ->]; auto.
      * intros H. apply H1. now right.
      * intros H. apply H2. now right.
Qed.

(** X25. Stored uploads do not clash by accident: two uploads that differ
    in the millisecond they were received in or in their original name are
    kept under different file names. *)
Theorem storage_filename_distinct
    (timestamp timestamp' : Z) (originalname originalname' : string) :
  0 <= timestamp -> 0 <= timestamp' ->
  timestamp <> timestamp' \/ originalname <> originalname' ->
  Server.storage_filename timestamp originalname
  <> Server.storage_filename timestamp' originalname'.
Proof.
  intros Ht Ht' Hdiff E. unfold Server.storage_filename in E.
  apply (f_equal list_ascii_of_string) in E.
  rewrite !chars_append in E. cbn [list_ascii_of_string app] in E.
  apply split_at_first in E as [Hstamp Hname];
    [| now apply toString_no_dash | now apply toString_no_dash].
  destruct Hdiff as [Hdiff|Hdiff]; apply Hdiff.
  - apply toString_inj. now apply chars_inj.
  - now apply chars_inj.
Qed.

Lemma storage_filename_distinct_witness :
  Server.storage_filename 1752300000000 "1-test.txt"
  <> Server.storage_filename 17523000000001 "test.txt".
Proof.
  apply (storage_filename_distinct 1752300000000 17523000000001
           "1-test.txt" "test.txt"); [lia | lia | left; lia].
Defined.

(** ** Listing and fetching agree *)

Lemma get_of_entry {V : Type} (k : string) (v : V) (m : JsMap.t V) :
  List.NoDup (JsMap.keys m) -> In (k, v) m -> JsMap.get k m = Some v.
Proof.
  induction m as [|[k' v'] m IH]; cbn [JsMap.keys map fst]; [intros _ []|].
  intros Hnodup Hin. apply List.NoDup_cons_iff in Hnodup as [Hk' Hnodup].
  cbn [JsMap.get]. destruct (String.eqb_spec k' k) as [->|Hne].
  - destruct Hin as [[= ->]|Hin]; [reflexivity|].
    destruct Hk'. apply (in_map fst) in Hin. exact Hin.
  - destruct Hin as [[= -> _]|Hin]; [contradiction|]. now apply IH.
Qed.

(** X26. Whatever requests the server has handled since it started, every
    record that [GET /api/files] lists can be fetched by its own id:
    [GET /api/files/:id] with the id of a stored record answers 200 with
    the summary of that very record. *)
Theorem listed_rows_can_be_fetched
    (es : list Server.Endpoint) (r : Server.FileRecord) :
  let m := snd (Server.serve_all es JsMap.empty) in
  In r (JsMap.values m) ->
  fst (Server.getFile (Server.id r) m)
  = Server.respond 200 (JObj [
      ("success", JBool true);
      ("data", Server.summary r) ]).
Proof.
  intros m Hin.
  assert (Hm : well_keyed m).
  { apply (serve_all_keeps well_keyed route_well_keyed).
    split; constructor. }
  destruct Hm as [Hentries Hnodup].
  unfold JsMap.values in Hin. apply in_map_iff in Hin as [[k v] [Hv Hkv]].
  cbn in Hv. subst v.
  rewrite List.Forall_forall in Hentries.
  pose proof (Hentries (k, r) Hkv) as Hk. cbn in Hk. subst k.
  rewrite getFile_cases, (get_of_entry _ _ _ Hnodup Hkv). reflexivity.
Qed.

Lemma listed_rows_can_be_fetched_witness :
  fst (Server.getFile (Server.id busy_demo_record)
                      (snd (Server.serve_all busy_day JsMap.empty)))
  = Server.respond 200 (JObj [
      ("success", JBool true);
      ("data", Server.summary busy_demo_record) ]).
Proof.
  apply (listed_rows_can_be_fetched busy_day busy_demo_record).
  vm_compute. right. left. reflexivity.
Defined.


(** ** The routes that take a file *)

(** Once the one file a field may carry is taken, only parts without a
    file name get through. *)
Lemma accept_exhausted (b : bool) (field : string)
    (kept : option Multer.File) (parts : list Route.Part) (r : option Multer.File) :
  Route.accept b field 0 kept parts = Route.Delivered r
  <-> Forall unnamed parts /\ r = kept.
Proof.
  induction parts as [|p rest IH]; cbn [Route.accept].
  - split; [intros [= <-]; split; [constructor | reflexivity]
           | intros [_ ->]; reflexivity].
  - destruct (String.eqb_spec (Route.filename p) "") as [E|E].
    + rewrite IH. split; intros [H ->]; (split; [|reflexivity]).
      * now constructor.
      * now inversion H.
    + split.
      * destruct (negb _); discriminate.
      * intros [H _]. inversion H; subst. contradiction.
Qed.

(** A part without a file name does not count. *)
Lemma sole_file_skip (b : bool) (p q : Route.Part) (rest : list Route.Part) :
  unnamed p -> (sole_file b (p :: rest) q <-> sole_file b rest q).
Proof.
  intros Hp. split.
  - intros (pre & post & E & Hpre & Hpost & Hname & Hrest).
    destruct pre as [|p' pre].
    + injection E as -> ->. contradiction.
    + injection E as -> ->. apply Forall_cons_1 in Hpre as [_ Hpre].
      now exists pre, post.
  - intros (pre & post & -> & Hpre & Hpost & Hrest).
    exists (p :: pre), post. split; [reflexivity|].
    split; [now constructor | now split].
Qed.

(** The first named part is the file, or the request is refused. *)
Lemma sole_file_head (b : bool) (p q : Route.Part) (rest : list Route.Part) :
  ~ unnamed p ->
  (sole_file b (p :: rest) q
   <-> q = p /\ Forall unnamed rest /\ Route.fieldname p = "file"
       /\ Route.within_limit b p = true).
Proof.
  intros Hp. split.
  - intros (pre & post & E & Hpre & Hpost & Hname & Hfield & Hfits).
    destruct pre as [|p' pre].
    + injection E as -> ->. now repeat split.
    + injection E as -> ->. apply Forall_cons_1 in Hpre as [Hp' _].
      contradiction.
  - intros (-> & Hrest & Hfield & Hfits).
    exists [], rest. split; [reflexivity|].
    split; [constructor|]. now repeat split.
Qed.

(** What [upload.single('file')] hands to the callback. *)
Lemma single_delivers (b : bool) (parts : list Route.Part)
    (r : option Multer.File) :
  Route.single b "file" parts = Route.Delivered r
  <-> (Forall unnamed parts /\ r = None)
      \/ (exists p, sole_file b parts p /\ r = Some (Route.stored p)).
Proof.
  unfold Route.single.
  induction parts as [|p rest IH]; cbn [Route.accept].
  - split.
    + intros [= <-]. left. split; [constructor | reflexivity].
    + intros [[_ ->]|(p & (pre & post & E & _) & _)]; [reflexivity|].
      now destruct pre.
  - destruct (String.eqb_spec (Route.filename p) "") as [E|E].
    + rewrite IH. split.
      * intros [[H ->]|(q & Hq & ->)].
        -- left. split; [now constructor | reflexivity].
        -- right. exists q. split; [now apply sole_file_skip | reflexivity].
      * intros [[H ->]|(q & Hq & ->)].
        -- left. apply Forall_cons_1 in H as [_ H]. now split.
        -- right. exists q. split; [|reflexivity].
           now apply (sole_file_skip b p q rest E).
    + assert (Hnamed : ~ unnamed p) by exact E.
      destruct (String.eqb_spec (Route.fieldname p) "file") as [F|F];
        cbn [negb].
      * destruct (Route.within_limit b p) eqn:Hfits.
        -- rewrite accept_exhausted. split.
           ++ intros [Hrest ->]. right. exists p. split; [|reflexivity].
              now apply sole_file_head.
           ++ intros [[H _]|(q & Hq & ->)].
              ** apply Forall_cons_1 in H as [H _]. contradiction.
              ** apply sole_file_head in Hq as (-> & Hrest & _); [|exact Hnamed].
                 now split.
        -- split; [discriminate|].
           intros [[H _]|(q & Hq & _)].
           ++ apply Forall_cons_1 in H as [H _]. contradiction.
           ++ apply sole_file_head in Hq as (_ & _ & _ & Hq); [|exact Hnamed].
              congruence.
      * split; [discriminate|].
        intros [[H _]|(q & Hq & _)].
        -- apply Forall_cons_1 in H as [H _]. contradiction.
        -- apply sole_file_head in Hq as (_ & _ & Hq & _); [|exact Hnamed].
           contradiction.
Qed.

(** A request without a named file part reaches the callback without a
    file. *)
Lemma single_unnamed (b : bool) (parts : list Route.Part) :
  Forall unnamed parts -> Route.single b "file" parts = Route.Delivered None.
Proof. intros H. apply single_delivers. left. now split. Qed.

(** A request whose one part is named, sent under [file] and within the
    limit reaches the callback with that part as its file. *)
Lemma single_sole (b : bool) (p : Route.Part) :
  Route.fieldname p = "file" -> Route.filename p <> "" ->
  Route.within_limit b p = true ->
  Route.single b "file" [p] = Route.Delivered (Some (Route.stored p)).
Proof.
  intros Hfield Hname Hfits. apply single_delivers. right. exists p.
  split; [|reflexivity]. exists [], []. repeat split; try assumption; constructor.
Qed.


Lemma below_limit (b : bool) (p : Route.Part) :
  0 <= Route.bytes p < Route.fileSize -> Route.within_limit b p = true.
Proof.
  intros H. unfold Route.within_limit.
  destruct b; [apply Z.leb_le | apply Z.ltb_lt]; lia.
Qed.



Lemma post_delivered (b : bool) (parts : list Route.Part)
    (callback : option Multer.File -> Server.Handler Server.Response)
    (file : option Multer.File) :
  Route.single b "file" parts = Route.Delivered file ->
  Route.post b parts callback = callback file.
Proof. intros H. unfold Route.post. now rewrite H. Qed.


(** C4 (amended). A registration without a display name fails and adds no
    record: a request to [POST /api/upload] that has no file part, or whose
    file parts all come with an empty file name, is answered with status
    400 and leaves the record table as it was. Empty content is no ground
    for refusal: a named file sent under [file] whose content is empty,
    read to the end, is answered with status 200 and its record, carrying
    the digest of the empty byte sequence, is in the table afterwards. *)
Theorem registration_needs_a_named_file :
  (forall (at_limit_passes : bool) (parts : list Route.Part) (fs : Fs)
          (d : option string) (clock : Clock)
          (m : JsMap.t Server.FileRecord),
      Forall (fun p => Route.filename p = "") parts ->
      Route.post_upload at_limit_passes parts fs d clock m
      = (Server.respond 400 (JObj [ ("error", JStr "No file uploaded") ]), m))
  /\ (forall (at_limit_passes : bool) (p : Route.Part) (fs : Fs)
             (d : option string) (clock : Clock)
             (m : JsMap.t Server.FileRecord),
         Route.fieldname p = "file" ->
         Route.filename p <> "" ->
         Route.bytes p = 0 ->
         failure (createReadStream fs) = None ->
         content (createReadStream fs) = [] ->
         let answer := Route.post_upload at_limit_passes [p] fs d clock m in
         Server.status (fst answer) = 200
         /\ In (Server.new_record (Route.stored p) d clock (SHA256.hex []))
               (JsMap.values (snd answer))).
Proof.
  split.
  - intros b parts fs d clock m Hparts. unfold Route.post_upload.
    rewrite (post_delivered b parts _ None) by now apply single_unnamed.
    reflexivity.
  - intros b p fs d clock m Hfield Hname Hsize Hend Hempty answer.
    subst answer. unfold Route.post_upload.
    rewrite (post_delivered b [p] _ (Some (Route.stored p))).
    + destruct (upload_always_stores m (Route.stored p) fs d clock Hend)
        as [Hstatus Hin].
      split; [exact Hstatus|].
      unfold fingerprint in Hin. rewrite Hempty in Hin. exact Hin.
    + apply single_sole; [assumption | assumption|].
      apply below_limit. rewrite Hsize. unfold Route.fileSize. lia.
Qed.

Lemma registration_needs_a_named_file_witness :
  Route.post_upload true [nameless_part] demo_fs None demo_clock demo_table
  = (Server.respond 400 (JObj [ ("error", JStr "No file uploaded") ]),
     demo_table)
  /\ (let answer :=
        Route.post_upload true [empty_part] (reads [ []; [] ]) None
                          demo_clock JsMap.empty in
      Server.status (fst answer) = 200
      /\ In (Server.new_record (Route.stored empty_part) None demo_clock
                               (SHA256.hex []))
            (JsMap.values (snd answer))).
Proof.
  split.
  - apply (proj1 registration_needs_a_named_file true [nameless_part]).
    repeat constructor.
  - apply (proj2 registration_needs_a_named_file true empty_part
             (reads [ []; [] ]) None demo_clock JsMap.empty).
    + reflexivity.
    + discriminate.
    + reflexivity.
    + reflexivity.
    + reflexivity.
Defined.



